(** * The dark-mode toolbar tool of [src/Tool.tsx]

    A shallow embedding of the preference store ([store], [updateStore]),
    the surface applicators ([toggleDarkClass], [toggleDarkAttribute],
    [updateManager], [updatePreview]) and the [DarkMode] component's
    callbacks and effects ([setMode], [updateMode], [renderTheme], the
    configuration-load effect and the initialization effect).

    The browser and Storybook are a [World] that every operation threads:
    the entries of [localStorage], the manager's [body]
    element, the preview iframe's document, and the [trace] of every call
    the tool makes to the outside, in the order the calls are made.
    JavaScript exceptions are the left summand of a result; the world reached
    when the exception is thrown is kept, as a DOM mutation done before a
    throw stays done. *)

From Stdlib Require Import String Ascii List Bool Arith Lia.
Import ListNotations.
Local Open Scope string_scope.

(** ** Data model *)

(** [type Mode = 'light' | 'dark'].  The constructors are capitalised: the
    fields [light] and [dark] of [DarkModeParams] take the lower-case names. *)
Inductive Mode : Type := Light | Dark.

Definition Mode_eqb (a b : Mode) : bool :=
  match a, b with
  | Light, Light | Dark, Dark => true
  | _, _ => false
  end.

(** [interface DarkModePreviewParams].  What reaches the code at run time is
    an object in which any field may be missing, so every field is an option
    ([None] is JavaScript's [undefined]). *)
Record DarkModePreviewParams : Type := mkPreviewParams {
  classTarget : option string;
  attributeTarget : option string;
  attributeName : option string;
  darkAttribute : option string;
  lightAttribute : option string
}.

(** [interface DarkModeParams], over the type of themes ([ThemeVars] of
    [@storybook/theming]).  The same record stands for
    [Partial<DarkModeParams>]: the record [store] builds when nothing is
    persisted has no [current], although it is cast to [DarkModeParams]. *)
Record DarkModeParams (ThemeVars : Type) : Type := mkParams {
  current : option Mode;
  dark : option ThemeVars;
  darkClass : option string;
  light : option ThemeVars;
  lightClass : option string;
  previewParams : option DarkModePreviewParams
}.

Arguments mkParams {ThemeVars}.
Arguments current {ThemeVars}.
Arguments dark {ThemeVars}.
Arguments darkClass {ThemeVars}.
Arguments light {ThemeVars}.
Arguments lightClass {ThemeVars}.
Arguments previewParams {ThemeVars}.

(** The empty object [{}]. *)
Definition emptyParams {T : Type} : DarkModeParams T :=
  mkParams None None None None None None.

(** [a ?? b] on an optional field: the value of [a] when it has one. *)
Definition orElse {A : Type} (a b : option A) : option A :=
  match a with
  | Some x => Some x
  | None => b
  end.

(** Object spread [{ ...a, ...b }]: every field [b] has wins, field by field
    (the spread is shallow: [previewParams] is taken whole). *)
Definition spread {T : Type} (a b : DarkModeParams T) : DarkModeParams T :=
  {| current := orElse (current b) (current a);
     dark := orElse (dark b) (dark a);
     darkClass := orElse (darkClass b) (darkClass a);
     light := orElse (light b) (light a);
     lightClass := orElse (lightClass b) (lightClass a);
     previewParams := orElse (previewParams b) (previewParams a) |}.

(** [{ ...r, current }]. *)
Definition set_current {T : Type} (r : DarkModeParams T) (m : Mode) : DarkModeParams T :=
  {| current := Some m;
     dark := dark r;
     darkClass := darkClass r;
     light := light r;
     lightClass := lightClass r;
     previewParams := previewParams r |}.

(** [r.dark = t]. *)
Definition set_dark {T : Type} (r : DarkModeParams T) (t : T) : DarkModeParams T :=
  {| current := current r;
     dark := Some t;
     darkClass := darkClass r;
     light := light r;
     lightClass := lightClass r;
     previewParams := previewParams r |}.

(** [r.light = t]. *)
Definition set_light {T : Type} (r : DarkModeParams T) (t : T) : DarkModeParams T :=
  {| current := current r;
     dark := dark r;
     darkClass := darkClass r;
     light := Some t;
     lightClass := lightClass r;
     previewParams := previewParams r |}.

(** [r[mode]]: the theme of a mode. *)
Definition theme_of {T : Type} (r : DarkModeParams T) (mode : Mode) : option T :=
  match mode with
  | Dark => dark r
  | Light => light r
  end.

(** ** The world outside the tool *)

(** Keys with string values, for the storage and for attributes: the value
    of a key, and the list with a key set (in place when the key is there,
    at the end when it is not). *)
Fixpoint assoc_get (key : string) (l : list (string * string)) : option string :=
  match l with
  | [] => None
  | (k, v) :: l' => if String.eqb k key then Some v else assoc_get key l'
  end.

Fixpoint assoc_put (key value : string) (l : list (string * string))
  : list (string * string) :=
  match l with
  | [] => [(key, value)]
  | (k, v) :: l' =>
      if String.eqb k key then (k, value) :: l'
      else (k, v) :: assoc_put key value l'
  end.

(** A DOM element, as far as the tool touches it: its class list (a
    [DOMTokenList], in order) and its attributes. *)
Record Element : Type := mkElement {
  tagName : string;
  classList : list string;
  attributes : list (string * string)
}.

(** An element handle: the manager's [body], or the element at a position of
    the preview document (in document order). *)
Inductive Target : Type :=
| Manager
| Preview (index : nat).

(** What the tool does to the outside, one constructor per call. *)
Inductive Event (T : Type) : Type :=
| StorageWrite (key text : string)
| SetOptions (theme : option T)
| SetDark (isDark : bool)
| Emit (isDark : bool)
| ClassAdd (el : Target) (token : string)
| ClassRemove (el : Target) (token : string)
| SetAttribute (el : Target) (name value : string).

Arguments StorageWrite {T}.
Arguments SetOptions {T}.
Arguments SetDark {T}.
Arguments Emit {T}.
Arguments ClassAdd {T}.
Arguments ClassRemove {T}.
Arguments SetAttribute {T}.

(** [localStorage] is [window.localStorage], keys with their values; [body]
    is [document.querySelector('body')] of the manager; [iframe] is the
    element with id [storybook-preview-iframe] ([None]: there is none) with
    its document ([Some None]: the iframe has no document yet), a list of
    elements in document order; [trace] lists the calls made so far, oldest
    first. *)
Record World (T : Type) : Type := mkWorld {
  localStorage : list (string * string);
  body : option Element;
  iframe : option (option (list Element));
  trace : list (Event T)
}.

Arguments mkWorld {T}.
Arguments localStorage {T}.
Arguments body {T}.
Arguments iframe {T}.
Arguments trace {T}.

(** The DOM part of a world. *)
Definition dom {T : Type} (w : World T) : option Element * option (option (list Element)) :=
  (body w, iframe w).

(** The element a handle stands for. *)
Definition element_at {T : Type} (el : Target) (w : World T) : option Element :=
  match el with
  | Manager => body w
  | Preview i =>
      match iframe w with
      | Some (Some doc) => nth_error doc i
      | _ => None
      end
  end.

(** ** Effects: state and exceptions *)

Inductive Exn : Type := SyntaxError | TypeError | InvalidCharacterError.

Definition Eff (S A : Type) : Type := S -> S * (Exn + A).

Definition ret {S A : Type} (a : A) : Eff S A := fun s => (s, inr a).

Definition throw {S A : Type} (e : Exn) : Eff S A := fun s => (s, inl e).

Definition bind {S A B : Type} (m : Eff S A) (k : A -> Eff S B) : Eff S B :=
  fun s =>
    match m s with
    | (s', inr a) => k a s'
    | (s', inl e) => (s', inl e)
    end.

Declare Scope eff_scope.
Delimit Scope eff_scope with eff.
Notation "x <- m ;; k" := (bind m (fun x => k))
  (at level 61, m at next level, right associativity) : eff_scope.
Notation "m ;; k" := (bind m (fun _ => k))
  (at level 61, right associativity) : eff_scope.
Local Open Scope eff_scope.

(** The world an effect leaves, and what it returns or throws. *)
Definition after {S A : Type} (m : Eff S A) (s : S) : S := fst (m s).
Definition outcome {S A : Type} (m : Eff S A) (s : S) : Exn + A := snd (m s).

(** ** What the platform supplies

    The tool imports its themes and [ThemeVars] from [@storybook/theming],
    [equal] from [fast-deep-equal], and calls the browser's [JSON] object and
    selector engine.  None of them is code of this repository: they are the
    fields of an interface, and every property below holds for each instance.
    [JSON_parse] returns [None] where [JSON.parse] throws; a text it accepts
    is read as the object the code takes it for
    ([const stored: DarkModeParams = JSON.parse(storedItem)]), so a text that
    is JSON but not the JSON of an object is outside the model.  [matches]
    says whether a selector selects an element, [valid_selector] whether
    [querySelector] accepts the selector at all. *)
Class Platform (ThemeVars : Type) : Type := {
  themes_light : ThemeVars;
  themes_dark : ThemeVars;
  equal : ThemeVars -> ThemeVars -> bool;
  JSON_stringify : DarkModeParams ThemeVars -> string;
  JSON_parse : string -> option (DarkModeParams ThemeVars);
  valid_selector : string -> bool;
  matches : string -> Element -> bool
}.

(** ** Class lists and attributes *)

(** ASCII whitespace, as the DOM standard lists it: tab, line feed, form
    feed, carriage return and space. *)
Definition is_ascii_whitespace (c : ascii) : bool :=
  let n := nat_of_ascii c in
  (n =? 9)%nat || (n =? 10)%nat || (n =? 12)%nat || (n =? 13)%nat || (n =? 32)%nat.

Definition has_whitespace (token : string) : bool :=
  existsb is_ascii_whitespace (list_ascii_of_string token).

(** A token [DOMTokenList.add] and [remove] accept. *)
Definition valid_token (token : string) : bool :=
  negb (token =? "") && negb (has_whitespace token).

Definition has_token (token : string) (l : list string) : bool :=
  existsb (String.eqb token) l.

(** The token set after [add(token)]: appended unless it is there. *)
Definition add_token (token : string) (l : list string) : list string :=
  if has_token token l then l else l ++ [token].

(** The token set after [remove(token)]. *)
Definition remove_token (token : string) (l : list string) : list string :=
  filter (fun c => negb (String.eqb c token)) l.

Definition with_classList (f : list string -> list string) (e : Element) : Element :=
  {| tagName := tagName e; classList := f (classList e); attributes := attributes e |}.

Definition with_attributes (f : list (string * string) -> list (string * string))
  (e : Element) : Element :=
  {| tagName := tagName e; classList := classList e; attributes := f (attributes e) |}.

(** [l] with [f] applied at position [i] (unchanged when out of range). *)
Fixpoint update_nth {A : Type} (i : nat) (f : A -> A) (l : list A) : list A :=
  match l, i with
  | [], _ => []
  | x :: l', O => f x :: l'
  | x :: l', S i' => x :: update_nth i' f l'
  end.

(** The index of the first element that satisfies [p], counting from [i]. *)
Fixpoint find_from {A : Type} (p : A -> bool) (i : nat) (l : list A) : option nat :=
  match l with
  | [] => None
  | x :: l' => if p x then Some i else find_from p (S i) l'
  end.

Section Tool.

Context {ThemeVars : Type} {platform : Platform ThemeVars}.

Definition M (A : Type) : Type := Eff (World ThemeVars) A.

(** *** Primitive calls on the world *)

Definition log (e : Event ThemeVars) : M unit :=
  fun w =>
    ({| localStorage := localStorage w; body := body w; iframe := iframe w;
        trace := trace w ++ [e] |}, inr tt).

(** [window.localStorage.getItem(key)]: [None] is [null]. *)
Definition getItem (key : string) : M (option string) :=
  fun w => (w, inr (assoc_get key (localStorage w))).

(** [window.localStorage.setItem(key, text)] (the write is taken to succeed:
    no quota is modelled). *)
Definition setItem (key text : string) : M unit :=
  fun w =>
    ({| localStorage := assoc_put key text (localStorage w); body := body w;
        iframe := iframe w; trace := trace w ++ [StorageWrite key text] |}, inr tt).

(** A mutation of the element behind a handle. *)
Definition modify_element (el : Target) (f : Element -> Element) : M unit :=
  fun w =>
    match el with
    | Manager =>
        ({| localStorage := localStorage w; body := option_map f (body w);
            iframe := iframe w; trace := trace w |}, inr tt)
    | Preview i =>
        ({| localStorage := localStorage w; body := body w;
            iframe := option_map (option_map (update_nth i f)) (iframe w);
            trace := trace w |}, inr tt)
    end.

(** The token check of [DOMTokenList.add] and [remove]: [SyntaxError] on the
    empty token, [InvalidCharacterError] on one with ASCII whitespace. *)
Definition check_token (token : string) : M unit :=
  if token =? "" then throw SyntaxError
  else if has_whitespace token then throw InvalidCharacterError
  else ret tt.

(** [el.classList.add(token)]. *)
Definition classList_add (el : Target) (token : string) : M unit :=
  check_token token ;;
  modify_element el (with_classList (add_token token)) ;;
  log (ClassAdd el token).

(** [el.classList.remove(token)]. *)
Definition classList_remove (el : Target) (token : string) : M unit :=
  check_token token ;;
  modify_element el (with_classList (remove_token token)) ;;
  log (ClassRemove el token).

(** [el.setAttribute(name, value)] (the interface types the name as the
    literal ['theme'], a valid attribute name). *)
Definition setAttribute (el : Target) (name value : string) : M unit :=
  modify_element el (with_attributes (assoc_put name value)) ;;
  log (SetAttribute el name value).

(** [document.querySelector('body')] in the manager. *)
Definition querySelector_body : M (option Target) :=
  fun w =>
    (w, inr match body w with
            | Some _ => Some Manager
            | None => None
            end).

(** [document.getElementById('storybook-preview-iframe')] together with
    [iframe.contentDocument || iframe.contentWindow?.document]: [None] when
    there is no iframe, [Some false] when it has no document. *)
Definition getPreviewIframe : M (option bool) :=
  fun w =>
    (w, inr match iframe w with
            | None => None
            | Some None => Some false
            | Some (Some _) => Some true
            end).

(** [iframeDocument.querySelector(selector)]: the first element, in document
    order, that the selector matches; [SyntaxError] on an invalid selector. *)
Definition iframe_querySelector (selector : string) : M (option Target) :=
  fun w =>
    if valid_selector selector then
      (w, inr match iframe w with
              | Some (Some doc) => option_map Preview (find_from (matches selector) 0 doc)
              | _ => None
              end)
    else (w, inl SyntaxError).

(** A selector argument: [undefined] is converted to the string. *)
Definition selector_arg (s : option string) : string :=
  match s with
  | Some sel => sel
  | None => "undefined"
  end.

(** Reading a property of [r.previewParams]: [TypeError] when it is
    [undefined]. *)
Definition previewParams_of (r : DarkModeParams ThemeVars) : M DarkModePreviewParams :=
  match previewParams r with
  | Some pp => ret pp
  | None => throw TypeError
  end.

(** *** The module's constants *)

Definition STORAGE_KEY : string := "sb-addon-themes-3".

Definition defaultParams : DarkModeParams ThemeVars :=
  {| current := None;
     dark := Some themes_dark;
     darkClass := Some "dark";
     light := Some themes_light;
     lightClass := Some "light";
     previewParams := None |}.

Definition defaultPreviewParams : DarkModePreviewParams :=
  {| classTarget := Some "body";
     attributeTarget := None;
     attributeName := Some "theme";
     darkAttribute := Some "dark";
     lightAttribute := Some "light" |}.

(** A destructuring default [{ field = fallback }]. *)
Definition defaulted (field fallback : option string) : string :=
  match field, fallback with
  | Some s, _ => s
  | None, Some s => s
  | None, None => "undefined"
  end.

(** *** The functions of [Tool.tsx] *)

(** Persist the dark mode settings in localStorage. *)
Definition updateStore (newStore : DarkModeParams ThemeVars) : M unit :=
  setItem STORAGE_KEY (JSON_stringify newStore).

(** Add the light/dark class to an element. *)
Definition toggleDarkClass (el : Target) (r : DarkModeParams ThemeVars) : M unit :=
  let darkClass := defaulted (darkClass r) (darkClass defaultParams) in
  let lightClass := defaulted (lightClass r) (lightClass defaultParams) in
  match current r with
  | Some Dark =>
      classList_add el darkClass ;;
      classList_remove el lightClass
  | _ =>
      classList_add el lightClass ;;
      classList_remove el darkClass
  end.

(** Add the light/dark attribute value. *)
Definition toggleDarkAttribute (el : Target) (r : DarkModeParams ThemeVars) : M unit :=
  pp <- previewParams_of r ;;
  let attributeName := defaulted (attributeName pp) (attributeName defaultPreviewParams) in
  let darkAttribute := defaulted (darkAttribute pp) (darkAttribute defaultPreviewParams) in
  let lightAttribute := defaulted (lightAttribute pp) (lightAttribute defaultPreviewParams) in
  match current r with
  | Some Dark => setAttribute el attributeName darkAttribute
  | _ => setAttribute el attributeName lightAttribute
  end.

(** Update the preview iframe class. *)
Definition updatePreview (r : DarkModeParams ThemeVars) : M unit :=
  iframe <- getPreviewIframe ;;
  match iframe with
  | None => ret tt
  | Some false => ret tt
  | Some true =>
      pp <- previewParams_of r ;;
      classTarget <- iframe_querySelector (selector_arg (classTarget pp)) ;;
      match classTarget with
      | None => ret tt
      | Some classEl =>
          toggleDarkClass classEl r ;;
          attributeTarget <- iframe_querySelector (selector_arg (attributeTarget pp)) ;;
          match attributeTarget with
          | None => ret tt
          | Some attributeEl => toggleDarkAttribute attributeEl r
          end
      end
  end.

(** Update the manager iframe class. *)
Definition updateManager (r : DarkModeParams ThemeVars) : M unit :=
  manager <- querySelector_body ;;
  match manager with
  | None => ret tt
  | Some el => toggleDarkClass el r
  end.

(** [equal(stored.dark, userTheme.dark)] where the stored field may be
    [undefined]: [undefined] is deep-equal to no object. *)
Definition equal_stored (stored : option ThemeVars) (given : ThemeVars) : bool :=
  match stored with
  | Some t => equal t given
  | None => false
  end.

(** Update changed dark mode settings and persist to localStorage.
    ([userTheme] is an object, so the guard [if (userTheme)] holds; a theme
    that is supplied is an object too, so [userTheme.dark &&] asks whether it
    is supplied.) *)
Definition store (userTheme : DarkModeParams ThemeVars) : M (DarkModeParams ThemeVars) :=
  storedItem <- getItem STORAGE_KEY ;;
  match storedItem with
  | Some text =>
      match JSON_parse text with
      | None => throw SyntaxError
      | Some stored =>
          stored1 <-
            match dark userTheme with
            | Some t =>
                if negb (equal_stored (dark stored) t) then
                  updateStore (set_dark stored t) ;; ret (set_dark stored t)
                else ret stored
            | None => ret stored
            end ;;
          stored2 <-
            match light userTheme with
            | Some t =>
                if negb (equal_stored (light stored1) t) then
                  updateStore (set_light stored1 t) ;; ret (set_light stored1 t)
                else ret stored1
            | None => ret stored1
            end ;;
          ret stored2
      end
  | None => ret (spread defaultParams userTheme)
  end.

(** [mode === 'dark']. *)
Definition is_dark (mode : Mode) : bool := Mode_eqb mode Dark.

(** Set the theme in storybook, update the local state, and emit an event.
    [previewParams] is the component's own parameter, not the stored one. *)
Definition setMode (previewParams : option DarkModePreviewParams) (mode : Mode) : M unit :=
  currentStore <- store emptyParams ;;
  log (SetOptions (theme_of currentStore mode)) ;;
  log (SetDark (is_dark mode)) ;;
  log (Emit (is_dark mode)) ;;
  updateManager currentStore ;;
  match previewParams with
  | Some _ => updatePreview currentStore
  | None => ret tt
  end.

(** Update the theme settings in localStorage, react, and storybook. *)
Definition updateMode (previewParams : option DarkModePreviewParams) (mode : option Mode)
  : M unit :=
  currentStore <- store emptyParams ;;
  let current :=
    match mode with
    | Some m => m
    | None =>
        match current currentStore with
        | Some Dark => Light
        | _ => Dark
        end
    end in
  updateStore (set_current currentStore current) ;;
  setMode previewParams current.

(** Update the theme based on the color preference. *)
Definition prefersDarkUpdate (previewParams : option DarkModePreviewParams)
  (event_matches : bool) : M unit :=
  updateMode previewParams (Some (if event_matches then Dark else Light)).

(** Render the current theme. *)
Definition renderTheme (previewParams : option DarkModePreviewParams) : M unit :=
  r <- store emptyParams ;;
  let current :=
    match current r with
    | Some m => m
    | None => Light
    end in
  setMode previewParams current.

(** [const { current: defaultMode, previewParams, ...params } = darkModeParams]:
    the rest object. *)
Definition rest_params (darkModeParams : DarkModeParams ThemeVars) : DarkModeParams ThemeVars :=
  {| current := None;
     dark := dark darkModeParams;
     darkClass := darkClass darkModeParams;
     light := light darkModeParams;
     lightClass := lightClass darkModeParams;
     previewParams := None |}.

(** [initialMode]: [store(params).current], computed while rendering. *)
Definition initialMode (darkModeParams : DarkModeParams ThemeVars) : M (option Mode) :=
  r <- store (rest_params darkModeParams) ;;
  ret (current r).

(** When storybook params change update the stored themes. *)
Definition paramsEffect (darkModeParams : DarkModeParams ThemeVars) : M unit :=
  currentStore <- store emptyParams ;;
  updateStore (spread currentStore darkModeParams) ;;
  renderTheme (previewParams darkModeParams).

(** The last effect of the component: the initial mode, from the caller's
    default or the system preference, unless the user has set one. *)
Definition initEffect (previewParams : option DarkModePreviewParams)
  (initialMode defaultMode : option Mode) (prefersDark_matches : bool) : M unit :=
  match initialMode with
  | Some _ => ret tt
  | None =>
      match defaultMode with
      | Some m => updateMode previewParams (Some m)
      | None =>
          if prefersDark_matches then updateMode previewParams (Some Dark)
          else ret tt
      end
  end.

(** One mount of [DarkMode]: the render computes [initialMode], then the
    effects run in the order they are declared (the two effects in between
    only register listeners). *)
Definition mount (darkModeParams : DarkModeParams ThemeVars) (prefersDark_matches : bool)
  : M unit :=
  initial <- initialMode darkModeParams ;;
  paramsEffect darkModeParams ;;
  initEffect (previewParams darkModeParams) initial (current darkModeParams)
    prefersDark_matches.

End Tool.

(** ** The listeners of the component

    What the two listener effects of [DarkMode] subscribe to: the channel
    events [STORY_CHANGED], [SET_STORIES] and [DOCS_RENDERED], the channel
    event [UPDATE_DARK_MODE_EVENT_NAME] with its payload (a mode, or nothing),
    and a change of the [prefersDark] media query with the event's
    [matches]. *)
Inductive Signal : Type :=
| STORY_CHANGED
| SET_STORIES
| DOCS_RENDERED
| UPDATE_DARK_MODE (mode : option Mode)
| PrefersDarkChange (event_matches : bool).

Section Listeners.

Context {ThemeVars : Type} {platform : Platform ThemeVars}.

(** The callback each signal is subscribed to. *)
Definition listener (previewParams : option DarkModePreviewParams) (s : Signal)
  : Eff (World ThemeVars) unit :=
  match s with
  | STORY_CHANGED | SET_STORIES | DOCS_RENDERED => renderTheme previewParams
  | UPDATE_DARK_MODE mode => updateMode previewParams mode
  | PrefersDarkChange event_matches => prefersDarkUpdate previewParams event_matches
  end.

(** Signals delivered one after the other, each in a call of its own: a
    callback that throws ends its own call and the next signal finds the
    world it left. *)
Definition deliver (previewParams : option DarkModePreviewParams)
  (signals : list Signal) (w : World ThemeVars) : World ThemeVars :=
  fold_left (fun w' s => after (listener previewParams s) w') signals w.

End Listeners.

(** ** Vocabulary of the properties *)


Definition is_emit {T : Type} (e : Event T) : bool :=
  match e with
  | Emit _ => true
  | _ => false
  end.

(** A call on the manager's element: the work of the host-shell applicator. *)
Definition on_manager {T : Type} (e : Event T) : bool :=
  match e with
  | ClassAdd Manager _ | ClassRemove Manager _ | SetAttribute Manager _ _ => true
  | _ => false
  end.

(** A call on an element of the preview: the work of the frame applicators. *)
Definition on_preview {T : Type} (e : Event T) : bool :=
  match e with
  | ClassAdd (Preview _) _ | ClassRemove (Preview _) _
  | SetAttribute (Preview _) _ _ => true
  | _ => false
  end.

Definition is_dom_call {T : Type} (e : Event T) : bool :=
  on_manager e || on_preview e.

(** No applicator call follows the first notification of the trace. *)
Fixpoint applicators_before_emit {T : Type} (evs : list (Event T)) : bool :=
  match evs with
  | [] => true
  | Emit _ :: rest => forallb (fun e => negb (is_dom_call e)) rest
  | _ :: rest => applicators_before_emit rest
  end.

(** No notification follows the first applicator call of the trace. *)
Fixpoint emit_before_applicators {T : Type} (evs : list (Event T)) : bool :=
  match evs with
  | [] => true
  | e :: rest =>
      if is_dom_call e then forallb (fun e' => negb (is_emit e')) rest
      else emit_before_applicators rest
  end.

(** The other mode. *)
Definition complement (m : Mode) : Mode :=
  match m with
  | Dark => Light
  | Light => Dark
  end.

(** The events a world has seen since an earlier one. *)
Definition since {T : Type} (w w' : World T) (evs : list (Event T)) : Prop :=
  trace w' = (trace w ++ evs)%list.

(** Relations between the world before and the world after. *)
Definition same_storage {T : Type} (w w' : World T) : Prop :=
  localStorage w' = localStorage w.

(** The storage after the writes of a trace. *)
Fixpoint replay {T : Type} (evs : list (Event T)) (l : list (string * string))
  : list (string * string) :=
  match evs with
  | [] => l
  | StorageWrite key text :: evs' => replay evs' (assoc_put key text l)
  | _ :: evs' => replay evs' l
  end.

(** The text the tool has stored: the value under [STORAGE_KEY]. *)
Definition slot {T : Type} (w : World T) : option string :=
  assoc_get STORAGE_KEY (localStorage w).

Definition appends {T : Type} (Q : Event T -> bool) (w w' : World T) : Prop :=
  exists evs, since w w' evs /\ forallb Q evs = true.

(** An effect whose every run relates the two worlds by [R], whether it
    returns or throws. *)
Definition steps {T A : Type} (R : World T -> World T -> Prop) (m : Eff (World T) A)
  : Prop :=
  forall w, R w (after m w).

Definition same_body {T : Type} (w w' : World T) : Prop :=
  body w' = body w.

Definition same_iframe {T : Type} (w w' : World T) : Prop :=
  iframe w' = iframe w.

(** Every key of the storage but [STORAGE_KEY] has the value it had. *)
Definition other_keys_kept {T : Type} (w w' : World T) : Prop :=
  forall key, key <> STORAGE_KEY ->
              assoc_get key (localStorage w') = assoc_get key (localStorage w).

(** Whether a signal is one of the three that re-render the theme. *)
Definition rerenders (s : Signal) : bool :=
  match s with
  | STORY_CHANGED | SET_STORIES | DOCS_RENDERED => true
  | _ => false
  end.

(** A DOM with one element changed. *)
Definition modify_dom (el : Target) (f : Element -> Element)
  (d : option Element * option (option (list Element)))
  : option Element * option (option (list Element)) :=
  match el with
  | Manager => (option_map f (fst d), snd d)
  | Preview i => (fst d, option_map (option_map (update_nth i f)) (snd d))
  end.

Section Vocabulary.

Context {ThemeVars : Type} {platform : Platform ThemeVars}.

(** The record comes back from the slot as it went in. *)
Definition survives (r : DarkModeParams ThemeVars) : Prop :=
  JSON_parse (JSON_stringify r) = Some r.

(** The slot holds the text of a record whose mode is [m]. *)
Definition slot_mode (w : World ThemeVars) (m : option Mode) : Prop :=
  exists r, slot w = Some (JSON_stringify r) /\ current r = m.

(** [o] supplies a theme that is not deep-equal to the stored one: the
    condition under which [store] replaces the stored theme. *)
Definition differs (given stored : option ThemeVars) : bool :=
  match given with
  | Some t => negb (equal_stored stored t)
  | None => false
  end.

(** The stored record after the [dark] step of [store]. *)
Definition dark_merged (o s : DarkModeParams ThemeVars) : DarkModeParams ThemeVars :=
  match dark o with
  | Some t => if differs (dark o) (dark s) then set_dark s t else s
  | None => s
  end.

(** The stored record after both steps. *)
Definition merged (o s : DarkModeParams ThemeVars) : DarkModeParams ThemeVars :=
  match light o with
  | Some t =>
      if differs (light o) (light s) then set_light (dark_merged o s) t
      else dark_merged o s
  | None => dark_merged o s
  end.

(** The writes of one call of [store] on a stored record: one after each
    replacement, of the record as it is then. *)
Definition merge_writes (o s : DarkModeParams ThemeVars) : list (Event ThemeVars) :=
  ((if differs (dark o) (dark s)
    then [StorageWrite STORAGE_KEY (JSON_stringify (dark_merged o s))] else []) ++
   (if differs (light o) (light s)
    then [StorageWrite STORAGE_KEY (JSON_stringify (merged o s))] else []))%list.

(** The class of the record's mode and the class of the other mode, as
    [toggleDarkClass] reads them. *)
Definition active_class (r : DarkModeParams ThemeVars) : string :=
  match current r with
  | Some Dark => defaulted (darkClass r) (darkClass defaultParams)
  | _ => defaulted (lightClass r) (lightClass defaultParams)
  end.

Definition inactive_class (r : DarkModeParams ThemeVars) : string :=
  match current r with
  | Some Dark => defaulted (lightClass r) (lightClass defaultParams)
  | _ => defaulted (darkClass r) (darkClass defaultParams)
  end.

(** The class list after one call of [toggleDarkClass]: the class of the
    record's mode is added and the other class removed, up to the first token
    the class list refuses. *)
Definition toggle_classes (r : DarkModeParams ThemeVars) (l : list string) : list string :=
  if valid_token (active_class r) then
    if valid_token (inactive_class r)
    then remove_token (inactive_class r) (add_token (active_class r) l)
    else add_token (active_class r) l
  else l.

(** The relations the lemmas below carry through a sequence: reflexive and
    transitive. *)
Definition carried (R : World ThemeVars -> World ThemeVars -> Prop) : Prop :=
  (forall w, R w w) /\ (forall w1 w2 w3, R w1 w2 -> R w2 w3 -> R w1 w3).

(** A relation that every call on the element [el] respects. *)
Definition respected_on (el : Target) (R : World ThemeVars -> World ThemeVars -> Prop) : Prop :=
  carried R /\
  (forall f, steps R (modify_element el f)) /\
  (forall c, steps R (log (ClassAdd el c))) /\
  (forall c, steps R (log (ClassRemove el c))) /\
  (forall n v, steps R (log (SetAttribute el n v))).

(** The three calls [setMode] makes between loading the record and applying
    it. *)
Definition announce (cs : DarkModeParams ThemeVars) (mode : Mode) : list (Event ThemeVars) :=
  [SetOptions (theme_of cs mode); SetDark (is_dark mode); Emit (is_dark mode)].

(** The world once [setMode] has announced the mode. *)
Definition announced (cs : DarkModeParams ThemeVars) (mode : Mode) (w : World ThemeVars) : World ThemeVars :=
  {| localStorage := localStorage w; body := body w; iframe := iframe w;
     trace := (trace w ++ announce cs mode)%list |}.

(** What is left of [setMode] then: the two applicators. *)
Definition apply_surfaces (pp : option DarkModePreviewParams) (cs : DarkModeParams ThemeVars) : Eff (World ThemeVars) unit :=
  bind (updateManager cs)
       (fun _ => match pp with
                 | Some _ => updatePreview cs
                 | None => ret tt
                 end).



(** The mode [renderTheme] renders for a record. *)
Definition rendered_mode (r : DarkModeParams ThemeVars) : Mode :=
  match current r with
  | Some m => m
  | None => Light
  end.

End Vocabulary.

(** ** An instance of the platform

    A small browser: themes are flat objects of strings, [JSON] text is
    printed without blanks and read back by a recursive-descent reader, a
    selector is a tag name or a dot and a class name.  The instance gives the
    general statements below concrete inputs to run on. *)
Module Demo.

Definition Theme : Type := list (string * string).

(** The JSON values a stored record is made of. *)
#[warnings="-register-all"]
Inductive json : Type :=
| JString (s : string)
| JObject (members : list (string * json)).

Definition dquote : ascii := "034"%char.
Definition backslash : ascii := "092"%char.

Fixpoint escape (s : string) : string :=
  match s with
  | EmptyString => EmptyString
  | String c s' =>
      if Ascii.eqb c dquote || Ascii.eqb c backslash
      then String backslash (String c (escape s'))
      else String c (escape s')
  end.

Definition quoted (s : string) : string :=
  String dquote (escape s ++ String dquote EmptyString).

Fixpoint print (v : json) : string :=
  match v with
  | JString s => quoted s
  | JObject ms =>
      let fix members (l : list (string * json)) : string :=
        match l with
        | [] => ""
        | (k, x) :: l' =>
            quoted k ++ ":" ++ print x ++
            match l' with
            | [] => ""
            | _ :: _ => "," ++ members l'
            end
        end in
      "{" ++ members ms ++ "}"
  end.

(** The text up to the closing quote, unescaped, and the text after it. *)
Fixpoint read_string (s : string) : option (string * string) :=
  match s with
  | EmptyString => None
  | String c s' =>
      if Ascii.eqb c dquote then Some (EmptyString, s')
      else if Ascii.eqb c backslash then
        match s' with
        | EmptyString => None
        | String e s'' =>
            match read_string s'' with
            | Some (t, rest) => Some (String e t, rest)
            | None => None
            end
        end
      else
        match read_string s' with
        | Some (t, rest) => Some (String c t, rest)
        | None => None
        end
  end.

Fixpoint read_value (fuel : nat) (s : string) : option (json * string) :=
  match fuel with
  | O => None
  | S fuel' =>
      match s with
      | EmptyString => None
      | String c s' =>
          if Ascii.eqb c dquote then
            match read_string s' with
            | Some (t, rest) => Some (JString t, rest)
            | None => None
            end
          else if Ascii.eqb c "{"%char then
            match s' with
            | String "}"%char rest => Some (JObject [], rest)
            | _ =>
                match read_members fuel' s' with
                | Some (ms, rest) => Some (JObject ms, rest)
                | None => None
                end
            end
          else None
      end
  end
with read_members (fuel : nat) (s : string) : option (list (string * json) * string) :=
  match fuel with
  | O => None
  | S fuel' =>
      match s with
      | String c s1 =>
          if Ascii.eqb c dquote then
            match read_string s1 with
            | Some (k, String ":"%char s2) =>
                match read_value fuel' s2 with
                | Some (v, String ","%char s3) =>
                    match read_members fuel' s3 with
                    | Some (ms, rest) => Some ((k, v) :: ms, rest)
                    | None => None
                    end
                | Some (v, String "}"%char s3) => Some ([(k, v)], s3)
                | _ => None
                end
            | _ => None
            end
          else None
      | EmptyString => None
      end
  end.

Definition parse (s : string) : option json :=
  match read_value (S (String.length s)) s with
  | Some (v, EmptyString) => Some v
  | _ => None
  end.

Fixpoint member (key : string) (ms : list (string * json)) : option json :=
  match ms with
  | [] => None
  | (k, v) :: ms' => if String.eqb k key then Some v else member key ms'
  end.

(** Optional members of an object.  A reader returns [None] when the member
    is there with the wrong shape, [Some None] when it is missing. *)
Definition opt_member {A : Type} (read : json -> option A) (key : string)
  (ms : list (string * json)) : option (option A) :=
  match member key ms with
  | None => Some None
  | Some v =>
      match read v with
      | Some a => Some (Some a)
      | None => None
      end
  end.

Definition as_string (v : json) : option string :=
  match v with
  | JString s => Some s
  | JObject _ => None
  end.

Definition as_mode (v : json) : option Mode :=
  match v with
  | JString s =>
      if s =? "dark" then Some Dark
      else if s =? "light" then Some Light
      else None
  | JObject _ => None
  end.

Fixpoint as_strings (ms : list (string * json)) : option Theme :=
  match ms with
  | [] => Some []
  | (k, JString s) :: ms' =>
      match as_strings ms' with
      | Some t => Some ((k, s) :: t)
      | None => None
      end
  | (_, JObject _) :: _ => None
  end.

Definition as_theme (v : json) : option Theme :=
  match v with
  | JObject ms => as_strings ms
  | JString _ => None
  end.

Definition as_previewParams (v : json) : option DarkModePreviewParams :=
  match v with
  | JString _ => None
  | JObject ms =>
      match opt_member as_string "classTarget" ms,
            opt_member as_string "attributeTarget" ms,
            opt_member as_string "attributeName" ms,
            opt_member as_string "darkAttribute" ms,
            opt_member as_string "lightAttribute" ms with
      | Some a, Some b, Some c, Some d, Some e => Some (mkPreviewParams a b c d e)
      | _, _, _, _, _ => None
      end
  end.

Definition as_params (v : json) : option (DarkModeParams Theme) :=
  match v with
  | JString _ => None
  | JObject ms =>
      match opt_member as_mode "current" ms,
            opt_member as_theme "dark" ms,
            opt_member as_string "darkClass" ms,
            opt_member as_theme "light" ms,
            opt_member as_string "lightClass" ms,
            opt_member as_previewParams "previewParams" ms with
      | Some a, Some b, Some c, Some d, Some e, Some f => Some (mkParams a b c d e f)
      | _, _, _, _, _, _ => None
      end
  end.

(** The member of a field that is there. *)
Definition field {A : Type} (key : string) (show : A -> json) (o : option A)
  : list (string * json) :=
  match o with
  | Some a => [(key, show a)]
  | None => []
  end.

Definition of_mode (m : Mode) : json :=
  match m with
  | Dark => JString "dark"
  | Light => JString "light"
  end.

Definition of_theme (t : Theme) : json :=
  JObject (map (fun kv => (fst kv, JString (snd kv))) t).

Definition of_previewParams (pp : DarkModePreviewParams) : json :=
  JObject (field "classTarget" JString (classTarget pp) ++
           field "attributeTarget" JString (attributeTarget pp) ++
           field "attributeName" JString (attributeName pp) ++
           field "darkAttribute" JString (darkAttribute pp) ++
           field "lightAttribute" JString (lightAttribute pp)).

Definition of_params (r : DarkModeParams Theme) : json :=
  JObject (field "current" of_mode (current r) ++
           field "dark" of_theme (dark r) ++
           field "darkClass" JString (darkClass r) ++
           field "light" of_theme (light r) ++
           field "lightClass" JString (lightClass r) ++
           field "previewParams" of_previewParams (previewParams r)).

Definition stringify (r : DarkModeParams Theme) : string := print (of_params r).

Definition parse_params (s : string) : option (DarkModeParams Theme) :=
  match parse s with
  | Some v => as_params v
  | None => None
  end.

Fixpoint lookup (key : string) (t : Theme) : option string :=
  match t with
  | [] => None
  | (k, v) :: t' => if String.eqb k key then Some v else lookup key t'
  end.

(** Deep equality of two flat objects: as many keys, and every key of the
    first has the same value in the second. *)
Definition theme_equal (a b : Theme) : bool :=
  (length a =? length b)%nat &&
  forallb (fun kv =>
             match lookup (fst kv) b with
             | Some v => String.eqb v (snd kv)
             | None => false
             end) a.

(** A type selector, or a class selector [.name]. *)
Definition selects (selector : string) (e : Element) : bool :=
  match selector with
  | String "."%char name => has_token name (classList e)
  | _ => String.eqb selector (tagName e)
  end.

#[global] Instance platform : Platform Theme := {|
  themes_light := [("base", "light")];
  themes_dark := [("base", "dark")];
  equal := theme_equal;
  JSON_stringify := stringify;
  JSON_parse := parse_params;
  valid_selector := fun s => negb (s =? "");
  matches := selects
|}.

(** A manager page and a preview document with a root and a body. *)
Definition page : Element := mkElement "body" [] [].

Definition preview_doc : list Element :=
  [mkElement "html" [] []; mkElement "body" [] []].

(** A browser with the given stored text. *)
Definition browser (stored : option string) : World Theme :=
  mkWorld match stored with
          | Some text => [(STORAGE_KEY, text)]
          | None => []
          end
          (Some page) (Some (Some preview_doc)) [].

(** A stored record whose mode the user has set to light. *)
Definition user_light : DarkModeParams Theme :=
  mkParams (Some Light) (Some [("base", "dark")]) (Some "dark")
           (Some [("base", "light")]) (Some "light") None.

(** The caller's parameters [{ current: 'dark' }]. *)
Definition config_dark : DarkModeParams Theme :=
  mkParams (Some Dark) None None None None None.

(** A record whose two class names are the same. *)
Definition same_class : DarkModeParams Theme :=
  mkParams (Some Dark) None (Some "theme") None (Some "theme") None.

(** Preview parameters that point both toggles at the preview's body. *)
Definition preview_body : DarkModePreviewParams :=
  mkPreviewParams (Some "body") (Some "body") None None None.

(** A stored record in dark mode that knows the preview parameters. *)
Definition user_dark : DarkModeParams Theme :=
  mkParams (Some Dark) (Some [("base", "dark")]) (Some "dark")
           (Some [("base", "light")]) (Some "light") (Some preview_body).

(** Overrides that bring another dark theme. *)
Definition night_overrides : DarkModeParams Theme :=
  mkParams None (Some [("base", "night")]) None None None None.



(** A body that has a class and an attribute of its own. *)
Definition styled_page : Element :=
  mkElement "body" ["sb-show-main"; "light"] [("lang", "en")].

(** A browser whose storage has a key of another tool beside the stored
    text, and whose manager body is [styled_page]. *)
Definition shared_browser (text : string) : World Theme :=
  mkWorld [("other-tool", "kept"); (STORAGE_KEY, text)]
          (Some styled_page) (Some (Some preview_doc)) [].

End Demo.

(** * Properties *)

Section Properties.

Context {ThemeVars : Type} {platform : Platform ThemeVars}.

Local Abbreviation W := (World ThemeVars).
Local Abbreviation Params := (DarkModeParams ThemeVars).

(** ** Running a sequence *)

Lemma bind_returns {A B : Type} (m : Eff W A) (k : A -> Eff W B) w w' a :
  m w = (w', inr a) -> bind m k w = k a w'.
Proof. intros E. unfold bind. rewrite E. reflexivity. Qed.

Lemma bind_throws {A B : Type} (m : Eff W A) (k : A -> Eff W B) w w' e :
  m w = (w', inl e) -> bind m k w = (w', inl e).
Proof. intros E. unfold bind. rewrite E. reflexivity. Qed.

Lemma after_bind {A B : Type} (m : Eff W A) (k : A -> Eff W B) w :
  after (bind m k) w =
  match outcome m w with
  | inr a => after (k a) (after m w)
  | inl _ => after m w
  end.
Proof.
  unfold after, outcome, bind. destruct (m w) as [w' [e | a]]; reflexivity.
Qed.

Lemma run_eq {A : Type} (m : Eff W A) w : m w = (after m w, outcome m w).
Proof. unfold after, outcome. destruct (m w); reflexivity. Qed.

(** ** The preference store *)

(** With nothing stored, [store] answers the defaults under the overrides
    and leaves the world as it is. *)
Lemma store_nothing_stored (o : Params) (w : W) :
  slot w = None -> store o w = (w, inr (spread defaultParams o)).
Proof.
  intros E. unfold store, bind, getItem. fold (slot w). rewrite E. reflexivity.
Qed.

(** With a readable record stored and no overrides, [store] answers the
    record and leaves the world as it is. *)
Lemma store_reads_back (w : W) text s :
  slot w = Some text -> JSON_parse text = Some s ->
  store emptyParams w = (w, inr s).
Proof.
  intros E P. unfold store, bind, getItem. fold (slot w). rewrite E, P. reflexivity.
Qed.

Lemma store_unreadable (o : Params) (w : W) text :
  slot w = Some text -> JSON_parse text = None ->
  store o w = (w, inl SyntaxError).
Proof.
  intros E P. unfold store, bind, getItem. fold (slot w). rewrite E, P. reflexivity.
Qed.

(** Without overrides [store] never changes the world. *)
Lemma store_no_overrides_after (w : W) : after (store emptyParams) w = w.
Proof.
  destruct (slot w) as [text |] eqn:E.
  - destruct (JSON_parse text) as [s |] eqn:P.
    + unfold after. rewrite (store_reads_back w text s E P). reflexivity.
    + unfold after. rewrite (store_unreadable _ w text E P). reflexivity.
  - unfold after. rewrite (store_nothing_stored _ w E). reflexivity.
Qed.

Lemma differs_iff (given stored : option ThemeVars) :
  differs given stored = true <->
  exists t, given = Some t /\ equal_stored stored t = false.
Proof.
  unfold differs. destruct given as [t |].
  - rewrite negb_true_iff. split.
    + intros E. exists t. split; [reflexivity | exact E].
    + intros [t' [E1 E2]]. injection E1 as <-. exact E2.
  - split; [discriminate | intros [t [E _]]; discriminate].
Qed.

Lemma assoc_get_put key value l : assoc_get key (assoc_put key value l) = Some value.
Proof.
  induction l as [| [k v] l IH]; simpl.
  - rewrite String.eqb_refl. reflexivity.
  - destruct (String.eqb k key) eqn:E; simpl; rewrite E; [reflexivity | exact IH].
Qed.

Lemma slot_written (r : Params) (w : W) :
  slot (after (updateStore r) w) = Some (JSON_stringify r).
Proof. apply assoc_get_put. Qed.

(** [store] on a stored record, in one equation. *)
Lemma store_stored (o : Params) (w : W) text s :
  slot w = Some text -> JSON_parse text = Some s ->
  store o w =
  ({| localStorage := replay (merge_writes o s) (localStorage w);
      body := body w;
      iframe := iframe w;
      trace := (trace w ++ merge_writes o s)%list |}, inr (merged o s)).
Proof.
  intros E P. unfold store, bind, getItem. fold (slot w). rewrite E, P.
  unfold merge_writes, merged.
  unfold dark_merged, differs, updateStore, setItem, ret, bind.
  destruct w as [ls b f tr]. simpl in *.
  destruct (dark o) as [td |], (light o) as [tl |]; simpl;
    repeat match goal with
           | |- context [negb (equal_stored ?a ?b)] =>
               destruct (equal_stored a b); simpl
           end;
    rewrite ?app_nil_r, <- ?app_assoc; reflexivity.
Qed.

Lemma merged_light_same (o s : Params) :
  differs (light o) (light s) = false -> merged o s = dark_merged o s.
Proof.
  intros L. unfold merged. rewrite L. destruct (light o); reflexivity.
Qed.

Lemma slot_merged (o s : Params) l text :
  assoc_get STORAGE_KEY l = Some text ->
  assoc_get STORAGE_KEY (replay (merge_writes o s) l) =
  (if differs (dark o) (dark s) || differs (light o) (light s)
   then Some (JSON_stringify (merged o s)) else Some text).
Proof.
  intros E. unfold merge_writes.
  destruct (differs (dark o) (dark s)) eqn:D, (differs (light o) (light s)) eqn:L;
    simpl; rewrite ?assoc_get_put; try reflexivity; try exact E.
  rewrite (merged_light_same o s L). reflexivity.
Qed.


(** C10: with nothing stored, [store] returns the defaults under the
    overrides and writes nothing: the slot is still empty afterwards and no
    call has been made. *)
Theorem store_first_read_writes_nothing (o : Params) (w : W) :
  slot w = None ->
  outcome (store o) w = inr (spread defaultParams o) /\
  after (store o) w = w /\
  slot (after (store o) w) = None /\
  trace (after (store o) w) = trace w.
Proof.
  intros E. pose proof (store_nothing_stored o w E) as R.
  unfold outcome, after. rewrite R. simpl. auto.
Qed.

(** C4: on a stored record [s], [store o] replaces a theme exactly when [o]
    supplies one that is not deep-equal to the stored one ([differs], see
    [differs_iff]), writes the record back after each replacement and at no
    other time, leaves a theme that [o] does not supply as it is, and never
    touches [current] or any other field. *)
Theorem store_replaces_exactly_unequal_themes (o : Params) (w : W) text s :
  slot w = Some text -> JSON_parse text = Some s ->
  exists r w',
    store o w = (w', inr r) /\
    dark r = (if differs (dark o) (dark s) then dark o else dark s) /\
    light r = (if differs (light o) (light s) then light o else light s) /\
    (dark o = None -> dark r = dark s) /\
    (light o = None -> light r = light s) /\
    current r = current s /\
    darkClass r = darkClass s /\
    lightClass r = lightClass s /\
    previewParams r = previewParams s /\
    since w w'
      ((if differs (dark o) (dark s)
        then [StorageWrite STORAGE_KEY (JSON_stringify (dark_merged o s))] else []) ++
       (if differs (light o) (light s)
        then [StorageWrite STORAGE_KEY (JSON_stringify r)] else []))%list /\
    slot w' =
      (if differs (dark o) (dark s) || differs (light o) (light s)
       then Some (JSON_stringify r) else Some text) /\
    dom w' = dom w.
Proof.
  intros E P. eexists. eexists.
  split; [apply (store_stored o w text s E P) |].
  pose proof (slot_merged o s (localStorage w) text E) as SM.
  unfold since, dom, slot. simpl localStorage. rewrite SM. clear SM.
  unfold merge_writes, merged, dark_merged. simpl.
  destruct (dark o) as [td |] eqn:Ed, (light o) as [tl |] eqn:El;
    unfold differs; simpl;
    repeat match goal with
           | |- context [negb (equal_stored ?a ?b)] =>
               destruct (equal_stored a b); simpl
           end;
    repeat split; try reflexivity; try discriminate.
Qed.


(** ** What an effect can change *)

Lemma after_bind_returns {A B : Type} (m : Eff W A) (k : A -> Eff W B) w w' a :
  m w = (w', inr a) -> after (bind m k) w = after (k a) w'.
Proof. intros E. unfold after. rewrite (bind_returns m k w w' a E). reflexivity. Qed.

Lemma same_storage_refl (w : W) : same_storage w w.
Proof. reflexivity. Qed.

Lemma same_storage_trans (w1 w2 w3 : W) :
  same_storage w1 w2 -> same_storage w2 w3 -> same_storage w1 w3.
Proof. unfold same_storage. intros E1 E2. rewrite E2. exact E1. Qed.

Lemma appends_refl (Q : Event ThemeVars -> bool) (w : W) : appends Q w w.
Proof. exists []. unfold since. rewrite app_nil_r. split; reflexivity. Qed.

Lemma appends_trans (Q : Event ThemeVars -> bool) (w1 w2 w3 : W) :
  appends Q w1 w2 -> appends Q w2 w3 -> appends Q w1 w3.
Proof.
  intros [e1 [S1 F1]] [e2 [S2 F2]]. exists (e1 ++ e2)%list. unfold since in *.
  rewrite S2, S1, app_assoc, forallb_app, F1, F2. split; reflexivity.
Qed.

Lemma same_storage_slot (w w' : W) : same_storage w w' -> slot w' = slot w.
Proof. unfold same_storage, slot. intros ->. reflexivity. Qed.

Lemma carried_same_storage : carried (ThemeVars := ThemeVars) same_storage.
Proof. split; [exact same_storage_refl | exact same_storage_trans]. Qed.

Lemma carried_appends (Q : Event ThemeVars -> bool) : carried (appends Q).
Proof. split; [exact (appends_refl Q) | exact (appends_trans Q)]. Qed.

Lemma steps_unchanged {A : Type} (R : W -> W -> Prop) (m : Eff W A) :
  carried R -> (forall w, after m w = w) -> steps R m.
Proof. intros [Rr _] U w. rewrite U. apply Rr. Qed.

Lemma steps_ret {A : Type} (R : W -> W -> Prop) (a : A) : carried R -> steps R (ret a).
Proof. intros C. apply steps_unchanged; [exact C | reflexivity]. Qed.

Lemma steps_bind {A B : Type} (R : W -> W -> Prop) (m : Eff W A) (k : A -> Eff W B) :
  carried R -> steps R m -> (forall a, steps R (k a)) -> steps R (bind m k).
Proof.
  intros [_ Rt] Hm Hk w. rewrite after_bind.
  destruct (outcome m w) as [e | a]; [apply Hm |].
  apply Rt with (w2 := after m w); [apply Hm | apply Hk].
Qed.

(** The same, when what [m] returns is known to satisfy [P]. *)
Lemma steps_bind_with {A B : Type} (R : W -> W -> Prop) (P : A -> Prop) (m : Eff W A) (k : A -> Eff W B) :
  carried R -> steps R m ->
  (forall w a, outcome m w = inr a -> P a) ->
  (forall a, P a -> steps R (k a)) -> steps R (bind m k).
Proof.
  intros [_ Rt] Hm HP Hk w. rewrite after_bind.
  destruct (outcome m w) as [e | a] eqn:O; [apply Hm |].
  apply Rt with (w2 := after m w); [apply Hm | apply Hk, (HP w), O].
Qed.

Lemma check_token_unchanged token (w : W) : after (check_token token) w = w.
Proof.
  unfold check_token. destruct (token =? ""); [reflexivity |].
  destruct (has_whitespace token); reflexivity.
Qed.

Lemma iframe_querySelector_unchanged selector (w : W) :
  after (iframe_querySelector selector) w = w.
Proof.
  unfold after, iframe_querySelector. destruct (valid_selector selector); reflexivity.
Qed.

Lemma previewParams_of_unchanged (r : Params) (w : W) :
  after (previewParams_of r) w = w.
Proof. unfold previewParams_of. destruct (previewParams r); reflexivity. Qed.

Lemma log_appends (Q : Event ThemeVars -> bool) e :
  Q e = true -> steps (appends Q) (log e).
Proof.
  intros H w. exists [e]. split; [reflexivity |]. simpl. rewrite H. reflexivity.
Qed.

Lemma modify_element_appends (Q : Event ThemeVars -> bool) el f :
  steps (appends Q) (modify_element el f).
Proof.
  intros w. exists []. unfold since.
  destruct el; simpl; rewrite app_nil_r; split; reflexivity.
Qed.

Lemma log_same_storage (e : Event ThemeVars) : steps same_storage (log e).
Proof. intros w. reflexivity. Qed.

Lemma modify_element_same_storage el f :
  steps same_storage (modify_element (ThemeVars := ThemeVars) el f).
Proof. intros w. destruct el; reflexivity. Qed.

Lemma same_storage_respected el : respected_on (ThemeVars := ThemeVars) el same_storage.
Proof.
  split; [exact carried_same_storage |].
  repeat split; intros; first [apply modify_element_same_storage | apply log_same_storage].
Qed.

Lemma on_manager_respected :
  respected_on (ThemeVars := ThemeVars) Manager (appends on_manager).
Proof.
  split; [apply carried_appends |].
  repeat split; intros;
    first [apply modify_element_appends | apply log_appends; reflexivity].
Qed.

Lemma on_preview_respected i :
  respected_on (ThemeVars := ThemeVars) (Preview i) (appends on_preview).
Proof.
  split; [apply carried_appends |].
  repeat split; intros;
    first [apply modify_element_appends | apply log_appends; reflexivity].
Qed.

Lemma classList_add_steps el (R : W -> W -> Prop) token :
  respected_on el R -> steps R (classList_add el token).
Proof.
  intros (C & Hm & Ha & _). unfold classList_add.
  apply steps_bind; [exact C | apply steps_unchanged; [exact C | apply check_token_unchanged] |].
  intros _. apply steps_bind; [exact C | apply Hm | intros _; apply Ha].
Qed.

Lemma classList_remove_steps el (R : W -> W -> Prop) token :
  respected_on el R -> steps R (classList_remove el token).
Proof.
  intros (C & Hm & _ & Hr & _). unfold classList_remove.
  apply steps_bind; [exact C | apply steps_unchanged; [exact C | apply check_token_unchanged] |].
  intros _. apply steps_bind; [exact C | apply Hm | intros _; apply Hr].
Qed.

Lemma toggleDarkClass_steps el (R : W -> W -> Prop) (r : Params) :
  respected_on el R -> steps R (toggleDarkClass el r).
Proof.
  intros H. pose proof H as (C & _).
  unfold toggleDarkClass. cbv zeta.
  destruct (current r) as [[|] |];
    (apply steps_bind; [exact C | apply classList_add_steps, H |
                        intros _; apply classList_remove_steps, H]).
Qed.

Lemma toggleDarkAttribute_steps el (R : W -> W -> Prop) (r : Params) :
  respected_on el R -> steps R (toggleDarkAttribute el r).
Proof.
  intros (C & Hm & _ & _ & Hs). unfold toggleDarkAttribute.
  apply steps_bind;
    [exact C | apply steps_unchanged; [exact C | apply previewParams_of_unchanged] |].
  intros pp. cbv zeta. unfold setAttribute.
  destruct (current r) as [[|] |];
    (apply steps_bind; [exact C | apply Hm | intros _; apply Hs]).
Qed.

Lemma querySelector_body_manager (w : W) a :
  outcome querySelector_body w = inr a -> a = None \/ a = Some Manager.
Proof.
  unfold outcome, querySelector_body. simpl. intros E. injection E as <-.
  destruct (body w); auto.
Qed.

Lemma iframe_querySelector_preview selector (w : W) a :
  outcome (iframe_querySelector selector) w = inr a ->
  a = None \/ exists i, a = Some (Preview i).
Proof.
  unfold outcome, iframe_querySelector.
  destruct (valid_selector selector); simpl; [| discriminate].
  intros E. injection E as <-.
  destruct (iframe w) as [[doc |] |]; auto.
  destruct (find_from (matches selector) 0 doc) as [i |]; simpl; eauto.
Qed.

Lemma updateManager_steps (R : W -> W -> Prop) (r : Params) :
  respected_on Manager R -> steps R (updateManager r).
Proof.
  intros H. pose proof H as (C & _). unfold updateManager.
  apply steps_bind_with with (P := fun a => a = None \/ a = Some Manager).
  - exact C.
  - apply steps_unchanged; [exact C | reflexivity].
  - exact querySelector_body_manager.
  - intros a [-> | ->]; [apply steps_ret, C | apply toggleDarkClass_steps, H].
Qed.

Lemma updatePreview_steps (R : W -> W -> Prop) (r : Params) :
  (forall i, respected_on (Preview i) R) -> steps R (updatePreview r).
Proof.
  intros H. pose proof (H 0) as (C & _). unfold updatePreview.
  apply steps_bind; [exact C | apply steps_unchanged; [exact C | reflexivity] |].
  intros [[|] |]; try (apply steps_ret, C).
  apply steps_bind;
    [exact C | apply steps_unchanged; [exact C | apply previewParams_of_unchanged] |].
  intros pp.
  apply steps_bind_with with (P := fun a => a = None \/ exists i, a = Some (Preview i));
    [exact C
    | apply steps_unchanged; [exact C | apply iframe_querySelector_unchanged]
    | apply iframe_querySelector_preview |].
  intros a [-> | [i ->]]; [apply steps_ret, C |].
  apply steps_bind; [exact C | apply toggleDarkClass_steps, H |].
  intros _.
  apply steps_bind_with with (P := fun a => a = None \/ exists i, a = Some (Preview i));
    [exact C
    | apply steps_unchanged; [exact C | apply iframe_querySelector_unchanged]
    | apply iframe_querySelector_preview |].
  intros a [-> | [j ->]]; [apply steps_ret, C | apply toggleDarkAttribute_steps, H].
Qed.

(** ** [setMode] *)

Lemma store_no_overrides_run (w : W) :
  store emptyParams w = (w, outcome (store emptyParams) w).
Proof.
  rewrite (run_eq (store emptyParams) w) at 1. rewrite store_no_overrides_after.
  reflexivity.
Qed.

Lemma setMode_loaded pp mode (w : W) cs :
  outcome (store emptyParams) w = inr cs ->
  setMode pp mode w = apply_surfaces pp cs (announced cs mode w).
Proof.
  intros O. unfold setMode.
  rewrite (bind_returns _ _ w w cs) by (rewrite store_no_overrides_run, O; reflexivity).
  unfold apply_surfaces, announced, announce, log, bind. simpl.
  rewrite <- !app_assoc. reflexivity.
Qed.

Lemma setMode_not_loaded pp mode (w : W) e :
  outcome (store emptyParams) w = inl e ->
  setMode pp mode w = (w, inl e).
Proof.
  intros O. unfold setMode.
  apply bind_throws. rewrite store_no_overrides_run, O. reflexivity.
Qed.

Lemma apply_surfaces_steps (R : W -> W -> Prop) pp (cs : Params) :
  respected_on Manager R -> (forall i, respected_on (Preview i) R) ->
  steps R (apply_surfaces pp cs).
Proof.
  intros Hm Hp. pose proof Hm as (C & _). unfold apply_surfaces.
  apply steps_bind; [exact C | apply updateManager_steps, Hm |].
  intros _. destruct pp; [apply updatePreview_steps, Hp | apply steps_ret, C].
Qed.



Lemma apply_surfaces_trace pp (cs : Params) (w : W) :
  exists shell frame,
    since w (after (apply_surfaces pp cs) w) (shell ++ frame)%list /\
    forallb on_manager shell = true /\
    forallb on_preview frame = true /\
    (pp = None -> frame = []).
Proof.
  unfold apply_surfaces. rewrite after_bind.
  destruct (updateManager_steps _ cs on_manager_respected w) as [shell [S F]].
  destruct (outcome (updateManager cs) w) as [e | []].
  - exists shell, []. rewrite app_nil_r. auto.
  - destruct pp as [p |].
    + destruct (updatePreview_steps _ cs on_preview_respected (after (updateManager cs) w))
        as [frame [S' F']].
      exists shell, frame. unfold since in *. rewrite S', S, app_assoc.
      repeat split; auto. discriminate.
    + exists shell, []. rewrite app_nil_r. auto.
Qed.

Lemma filter_emit_on_manager (l : list (Event ThemeVars)) :
  forallb on_manager l = true -> filter is_emit l = [].
Proof.
  induction l as [| e l IH]; [reflexivity |]. simpl.
  intros H. apply andb_prop in H as [He Hl].
  destruct e; simpl in *; try discriminate; auto.
Qed.

Lemma filter_emit_on_preview (l : list (Event ThemeVars)) :
  forallb on_preview l = true -> filter is_emit l = [].
Proof.
  induction l as [| e l IH]; [reflexivity |]. simpl.
  intros H. apply andb_prop in H as [He Hl].
  destruct e; simpl in *; try discriminate; auto.
Qed.

Lemma no_emit_of_filter (l : list (Event ThemeVars)) :
  filter is_emit l = [] -> forallb (fun e => negb (is_emit e)) l = true.
Proof.
  induction l as [| e l IH]; [reflexivity |]. simpl.
  destruct (is_emit e); [discriminate | exact IH].
Qed.

Lemma emit_before_applicators_no_emit (l : list (Event ThemeVars)) :
  filter is_emit l = [] -> emit_before_applicators l = true.
Proof.
  induction l as [| e l IH]; [reflexivity |]. simpl.
  destruct (is_emit e) eqn:E; [discriminate |]. intros H.
  destruct (is_dom_call e); [apply no_emit_of_filter, H | apply IH, H].
Qed.

(** C2, as the code has it: when the record loads, one call of [setMode]
    makes exactly one notification, with payload [mode = dark], and makes it
    before the applicators run; the calls on the manager's element come next
    and the calls on the preview's elements last, and there are none on the
    preview when the component has no [previewParams]. *)
Theorem setMode_emits_once_then_applies pp mode (w : W) cs :
  outcome (store emptyParams) w = inr cs ->
  exists shell frame,
    let evs :=
      ([SetOptions (theme_of cs mode); SetDark (is_dark mode); Emit (is_dark mode)]
       ++ shell ++ frame)%list in
    since w (after (setMode pp mode) w) evs /\
    forallb on_manager shell = true /\
    forallb on_preview frame = true /\
    (pp = None -> frame = []) /\
    filter is_emit evs = [Emit (is_dark mode)] /\
    emit_before_applicators evs = true.
Proof.
  intros O. unfold after. rewrite (setMode_loaded pp mode w cs O).
  destruct (apply_surfaces_trace pp cs (announced cs mode w))
    as (shell & frame & S & Fs & Ff & N).
  exists shell, frame. cbv zeta.
  assert (E : filter is_emit (shell ++ frame)%list = []).
  { rewrite filter_app, (filter_emit_on_manager _ Fs), (filter_emit_on_preview _ Ff).
    reflexivity. }
  repeat split; auto.
  - unfold since, after in *. rewrite S. simpl. rewrite <- app_assoc. reflexivity.
  - simpl. rewrite E. reflexivity.
  - simpl. apply emit_before_applicators_no_emit, E.
Qed.

(** ** [updateMode] *)

Lemma updateMode_loaded pp mode (w : W) cs :
  outcome (store emptyParams) w = inr cs ->
  let target :=
    match mode with
    | Some m => m
    | None => match current cs with Some Dark => Light | _ => Dark end
    end in
  updateMode pp mode w =
  setMode pp target (after (updateStore (set_current cs target)) w).
Proof.
  intros O. cbv zeta. unfold updateMode.
  rewrite (bind_returns _ _ w w cs) by (rewrite store_no_overrides_run, O; reflexivity).
  unfold bind at 1. reflexivity.
Qed.

Lemma setMode_same_storage pp mode : steps same_storage (setMode (ThemeVars := ThemeVars) pp mode).
Proof.
  intros w. unfold same_storage.
  destruct (outcome (store emptyParams) w) as [e | cs] eqn:O.
  - unfold after. rewrite (setMode_not_loaded pp mode w e O). reflexivity.
  - unfold after. rewrite (setMode_loaded pp mode w cs O).
    fold (after (apply_surfaces pp cs) (announced cs mode w)).
    apply (same_storage_trans w (announced cs mode w)); [reflexivity |].
    apply apply_surfaces_steps; intros; apply same_storage_respected.
Qed.

(** C5: on a stored record [s], [updateMode] writes [s] with [current] set to
    the target and then runs [setMode] on the target, which leaves that text
    in the slot.  The target is the explicit mode when there is one, else the
    complement of the record's mode ([Dark] when the record has none): one of
    the two modes in every case. *)
Theorem updateMode_persists_target_then_sets pp mode (w : W) text s :
  slot w = Some text -> JSON_parse text = Some s ->
  let target :=
    match mode, current s with
    | Some m, _ => m
    | None, Some c => complement c
    | None, None => Dark
    end in
  let w1 := after (updateStore (set_current s target)) w in
  slot w1 = Some (JSON_stringify (set_current s target)) /\
  current (set_current s target) = Some target /\
  updateMode pp mode w = setMode pp target w1 /\
  slot (after (updateMode pp mode) w) =
    Some (JSON_stringify (set_current s target)).
Proof.
  intros E P target w1.
  assert (O : outcome (store emptyParams) w = inr s).
  { unfold outcome. rewrite (store_reads_back w text s E P). reflexivity. }
  assert (U : updateMode pp mode w = setMode pp target w1).
  { rewrite (updateMode_loaded pp mode w s O). subst w1 target.
    destruct mode as [m |]; [reflexivity |].
    destruct (current s) as [[|] |]; reflexivity. }
  split; [apply slot_written |]. split; [reflexivity |]. split; [exact U |].
  unfold after at 1. rewrite U. fold (after (setMode pp target) w1).
  rewrite (same_storage_slot _ _ (setMode_same_storage pp target w1)).
  apply slot_written.
Qed.

(** ** Initialization *)

(** The resolver does nothing once the render has found a mode. *)
Lemma initEffect_respects_found_mode pp m defaultMode prefers (w : W) :
  initEffect pp (Some m) defaultMode prefers w = (w, inr tt).
Proof. reflexivity. Qed.

(** On an empty slot the render finds no mode and changes nothing, whatever
    themes the parameters carry. *)
Lemma initialMode_nothing_stored (cfg : Params) (w : W) :
  slot w = None -> initialMode cfg w = (w, inr None).
Proof.
  intros E. unfold initialMode.
  rewrite (bind_returns _ _ w w _ (store_nothing_stored _ w E)). reflexivity.
Qed.

Lemma updateMode_not_loaded pp mode (w : W) e :
  outcome (store emptyParams) w = inl e -> updateMode pp mode w = (w, inl e).
Proof.
  intros O. unfold updateMode. apply bind_throws.
  rewrite store_no_overrides_run, O. reflexivity.
Qed.

Lemma renderTheme_loaded pp (w : W) cs :
  outcome (store emptyParams) w = inr cs ->
  renderTheme pp w =
  setMode pp match current cs with Some m => m | None => Light end w.
Proof.
  intros O. unfold renderTheme.
  rewrite (bind_returns _ _ w w cs) by (rewrite store_no_overrides_run, O; reflexivity).
  reflexivity.
Qed.

Lemma renderTheme_same_storage pp : steps same_storage (renderTheme (ThemeVars := ThemeVars) pp).
Proof.
  unfold renderTheme. apply steps_bind.
  - exact carried_same_storage.
  - apply steps_unchanged; [exact carried_same_storage | exact store_no_overrides_after].
  - intros r. apply setMode_same_storage.
Qed.

(** On an empty slot the parameters effect writes the defaults under the
    caller's parameters and renders. *)
Lemma paramsEffect_nothing_stored (cfg : Params) (w : W) :
  slot w = None ->
  paramsEffect cfg w =
  renderTheme (previewParams cfg) (after (updateStore (spread defaultParams cfg)) w).
Proof.
  intros E. unfold paramsEffect.
  rewrite (bind_returns _ _ w w _ (store_nothing_stored _ w E)). reflexivity.
Qed.

Lemma paramsEffect_slot (cfg : Params) (w : W) :
  slot w = None ->
  slot (after (paramsEffect cfg) w) =
  Some (JSON_stringify (spread defaultParams cfg)).
Proof.
  intros E. unfold after at 1. rewrite (paramsEffect_nothing_stored cfg w E).
  fold (after (renderTheme (previewParams cfg))
          (after (updateStore (spread defaultParams cfg)) w)).
  rewrite (same_storage_slot _ _ (renderTheme_same_storage (previewParams cfg) _)).
  apply slot_written.
Qed.

(** [updateMode] with an explicit mode on a slot that has this mode already
    leaves the slot with this mode, whether it returns or throws. *)
Lemma updateMode_keeps_slot_mode pp m (w : W) :
  slot_mode w (Some m) -> slot_mode (after (updateMode pp (Some m)) w) (Some m).
Proof.
  intros H. destruct (outcome (store emptyParams) w) as [e | cs] eqn:O.
  - unfold after. rewrite (updateMode_not_loaded pp _ w e O). exact H.
  - pose proof (updateMode_loaded pp (Some m) w cs O) as U. cbv zeta in U.
    exists (set_current cs m). split; [| reflexivity].
    unfold after at 1. rewrite U.
    fold (after (setMode pp m) (after (updateStore (set_current cs m)) w)).
    rewrite (same_storage_slot _ _ (setMode_same_storage pp m _)).
    apply slot_written.
Qed.

(** [updateMode] with an explicit mode that returns has written this mode. *)
Lemma updateMode_returned_slot_mode pp m (w : W) :
  outcome (updateMode pp (Some m)) w = inr tt ->
  slot_mode (after (updateMode pp (Some m)) w) (Some m).
Proof.
  intros R. destruct (outcome (store emptyParams) w) as [e | cs] eqn:O.
  - unfold outcome in R. rewrite (updateMode_not_loaded pp _ w e O) in R. discriminate.
  - pose proof (updateMode_loaded pp (Some m) w cs O) as U. cbv zeta in U.
    exists (set_current cs m). split; [| reflexivity].
    unfold after at 1. rewrite U.
    fold (after (setMode pp m) (after (updateStore (set_current cs m)) w)).
    rewrite (same_storage_slot _ _ (setMode_same_storage pp m _)).
    apply slot_written.
Qed.

(** C3: mounted on an empty slot, the component finds no mode while
    rendering, and after the parameters effect its last effect resolves the
    mode in this order: the caller's default through [updateMode], whatever
    the system prefers; else dark through [updateMode] when the system
    prefers dark; else nothing, so that the light default of [renderTheme]
    stands.  In the first case the slot ends with the caller's default; in the
    second with dark, when the mount returns; in the third with no mode, light
    being what was announced (when the written record reads back). *)
Theorem mount_resolves_by_priority (cfg : Params) (prefers : bool) (w : W) :
  slot w = None ->
  initialMode cfg w = (w, inr None) /\
  mount cfg prefers w =
    bind (paramsEffect cfg)
         (fun _ =>
            match current cfg with
            | Some m => updateMode (previewParams cfg) (Some m)
            | None =>
                if prefers then updateMode (previewParams cfg) (Some Dark)
                else ret tt
            end) w /\
  (forall m, current cfg = Some m ->
             slot_mode (after (mount cfg prefers) w) (Some m)) /\
  (current cfg = None -> prefers = true ->
   outcome (mount cfg prefers) w = inr tt ->
   slot_mode (after (mount cfg prefers) w) (Some Dark)) /\
  (current cfg = None -> prefers = false ->
   survives (spread defaultParams cfg) ->
   slot_mode (after (mount cfg prefers) w) None /\
   exists evs,
     since w (after (mount cfg prefers) w)
       ([StorageWrite STORAGE_KEY (JSON_stringify (spread defaultParams cfg));
         SetOptions (light (spread defaultParams cfg)); SetDark false; Emit false]
        ++ evs)%list).
Proof.
  intros E. pose proof (initialMode_nothing_stored cfg w E) as I.
  assert (M : mount cfg prefers w =
              bind (paramsEffect cfg)
                (fun _ =>
                   match current cfg with
                   | Some m => updateMode (previewParams cfg) (Some m)
                   | None =>
                       if prefers then updateMode (previewParams cfg) (Some Dark)
                       else ret tt
                   end) w).
  { unfold mount. rewrite (bind_returns _ _ w w None I). reflexivity. }
  pose proof (paramsEffect_slot cfg w E) as PS.
  split; [exact I |]. split; [exact M |]. split; [| split].
  - intros m Cm. unfold after at 1. rewrite M.
    fold (after (bind (paramsEffect cfg)
                   (fun _ =>
                      match current cfg with
                      | Some m => updateMode (previewParams cfg) (Some m)
                      | None =>
                          if prefers then updateMode (previewParams cfg) (Some Dark)
                          else ret tt
                      end)) w).
    rewrite after_bind, Cm.
    assert (H : slot_mode (after (paramsEffect cfg) w) (Some m)).
    { exists (spread defaultParams cfg). split; [exact PS |]. simpl. rewrite Cm.
      reflexivity. }
    destruct (outcome (paramsEffect cfg) w) as [e | []]; [exact H |].
    apply updateMode_keeps_slot_mode, H.
  - intros Cn -> R. unfold outcome in R. unfold after at 1. rewrite M in *.
    rewrite Cn in *. unfold bind in *.
    destruct (paramsEffect cfg w) as [w2 [e | []]]; [discriminate |].
    apply updateMode_returned_slot_mode. exact R.
  - intros Cn -> S.
    set (r1 := spread defaultParams cfg) in *.
    set (w1 := after (updateStore r1) w).
    assert (O1 : outcome (store emptyParams) w1 = inr r1).
    { unfold outcome.
      rewrite (store_reads_back w1 (JSON_stringify r1) r1 (slot_written r1 w) S).
      reflexivity. }
    assert (C1 : current r1 = None).
    { unfold r1. simpl. rewrite Cn. reflexivity. }
    assert (A : after (mount cfg false) w =
                after (apply_surfaces (previewParams cfg) r1) (announced r1 Light w1)).
    { unfold after at 1. rewrite M, Cn. unfold bind.
      rewrite (paramsEffect_nothing_stored cfg w E).
      fold r1. fold w1.
      rewrite (renderTheme_loaded _ w1 r1 O1), C1.
      rewrite (setMode_loaded _ Light w1 r1 O1). unfold after.
      destruct (apply_surfaces (previewParams cfg) r1 (announced r1 Light w1))
        as [w2 [e | []]]; reflexivity. }
    rewrite A. split.
    + exists r1. split; [| exact C1].
      rewrite (same_storage_slot (announced r1 Light w1)).
      * apply slot_written.
      * apply apply_surfaces_steps; intros; apply same_storage_respected.
    + destruct (apply_surfaces_trace (previewParams cfg) r1 (announced r1 Light w1))
        as (shell & frame & T & _).
      exists (shell ++ frame)%list. unfold since in *. rewrite T. simpl.
      rewrite <- !app_assoc. reflexivity.
Qed.

(** C1, where the code departs from it: a stored record whose mode is light,
    mounted with the caller's parameters [{ current: 'dark' }].  The resolver
    itself does nothing ([initEffect_respects_found_mode]), but the
    parameters effect has already spread the caller's [current] over the
    stored record: the slot now holds dark, and dark is what is announced. *)
Theorem mount_default_overrides_stored_mode (prefers : bool) (w : W) text s :
  slot w = Some text -> JSON_parse text = Some s ->
  current s = Some Light ->
  survives (set_current s Dark) ->
  let cfg := mkParams (Some Dark) None None None None None in
  initialMode cfg w = (w, inr (Some Light)) /\
  slot (after (mount cfg prefers) w) =
    Some (JSON_stringify (set_current s Dark)) /\
  exists evs,
    since w (after (mount cfg prefers) w)
      ([StorageWrite STORAGE_KEY (JSON_stringify (set_current s Dark));
        SetOptions (dark s); SetDark true; Emit true] ++ evs)%list.
Proof.
  intros E P L S cfg.
  assert (I : initialMode cfg w = (w, inr (Some Light))).
  { unfold initialMode.
    rewrite (bind_returns _ _ w w s (store_reads_back w text s E P)).
    unfold ret. rewrite L. reflexivity. }
  split; [exact I |].
  set (w1 := after (updateStore (set_current s Dark)) w).
  assert (O1 : outcome (store emptyParams) w1 = inr (set_current s Dark)).
  { unfold outcome.
    rewrite (store_reads_back w1 (JSON_stringify (set_current s Dark)) _
               (slot_written _ w) S).
    reflexivity. }
  assert (A : after (mount cfg prefers) w =
              after (apply_surfaces None (set_current s Dark))
                    (announced (set_current s Dark) Dark w1)).
  { unfold mount.
    rewrite (after_bind_returns _ _ w w (Some Light) I).
    rewrite after_bind.
    assert (R : paramsEffect cfg w =
                apply_surfaces None (set_current s Dark)
                  (announced (set_current s Dark) Dark w1)).
    { unfold paramsEffect.
      rewrite (bind_returns _ _ w w s (store_reads_back w text s E P)).
      unfold bind at 1. change (spread s cfg) with (set_current s Dark).
      unfold updateStore at 1, setItem at 1.
      unfold renderTheme. simpl previewParams.
      match goal with
      | |- bind _ _ ?x = _ => change x with w1
      end.
      rewrite (bind_returns _ _ w1 w1 (set_current s Dark))
        by (rewrite store_no_overrides_run, O1; reflexivity).
      simpl current. apply (setMode_loaded None Dark w1 _ O1). }
    unfold outcome, after. rewrite R.
    destruct (apply_surfaces None (set_current s Dark)
                (announced (set_current s Dark) Dark w1)) as [w2 [e | []]];
      reflexivity. }
  rewrite A. split.
  - rewrite (same_storage_slot (announced (set_current s Dark) Dark w1)).
    + apply slot_written.
    + apply apply_surfaces_steps; intros; apply same_storage_respected.
  - destruct (apply_surfaces_trace None (set_current s Dark)
                (announced (set_current s Dark) Dark w1))
      as (shell & frame & T & _).
    exists (shell ++ frame)%list. unfold since in *. rewrite T. simpl.
    rewrite <- !app_assoc. reflexivity.
Qed.

(** ** The class applicator *)

Lemma has_token_In c l : has_token c l = true <-> In c l.
Proof.
  unfold has_token. rewrite existsb_exists. split.
  - intros [x [Hin E]]. apply String.eqb_eq in E. subst x. exact Hin.
  - intros H. exists c. split; [exact H | apply String.eqb_refl].
Qed.

Lemma In_remove_token a b l : In a (remove_token b l) <-> In a l /\ a <> b.
Proof.
  unfold remove_token. rewrite filter_In, negb_true_iff, String.eqb_neq. tauto.
Qed.

Lemma In_add_token a c l : In a (add_token c l) <-> In a l \/ a = c.
Proof.
  unfold add_token. destruct (has_token c l) eqn:H.
  - apply has_token_In in H. split; [auto | intros [I | ->]; assumption].
  - rewrite in_app_iff. simpl. split.
    + intros [I | [<- | []]]; auto.
    + intros [I | ->]; auto.
Qed.

Lemma add_token_present a l : In a l -> add_token a l = l.
Proof.
  intros H. apply has_token_In in H. unfold add_token. rewrite H. reflexivity.
Qed.

Lemma remove_token_again b l : remove_token b (remove_token b l) = remove_token b l.
Proof.
  unfold remove_token. induction l as [| c l IH]; [reflexivity |]. simpl.
  destruct (negb (c =? b)) eqn:E; simpl; [rewrite E, IH |]; auto.
Qed.

Lemma remove_added_token a l : remove_token a (add_token a l) = remove_token a l.
Proof.
  unfold add_token. destruct (has_token a l); [reflexivity |].
  unfold remove_token. rewrite filter_app. simpl.
  rewrite String.eqb_refl. simpl. apply app_nil_r.
Qed.

Lemma add_token_again a l : add_token a (add_token a l) = add_token a l.
Proof. apply add_token_present, In_add_token. auto. Qed.

Lemma toggle_tokens_again a b l :
  remove_token b (add_token a (remove_token b (add_token a l))) =
  remove_token b (add_token a l).
Proof.
  destruct (String.eqb_spec a b) as [<- | N].
  - rewrite !remove_added_token. apply remove_token_again.
  - rewrite (add_token_present a (remove_token b (add_token a l))).
    + apply remove_token_again.
    + apply In_remove_token. split; [apply In_add_token; auto | exact N].
Qed.

Lemma update_nth_compose {A : Type} i (g h : A -> A) l :
  update_nth i g (update_nth i h l) = update_nth i (fun x => g (h x)) l.
Proof.
  revert i. induction l as [| x l IH]; intros [| i]; simpl; try reflexivity.
  rewrite IH. reflexivity.
Qed.

Lemma update_nth_ext {A : Type} i (g h : A -> A) l :
  (forall x, g x = h x) -> update_nth i g l = update_nth i h l.
Proof.
  intros E. revert i. induction l as [| x l IH]; intros [| i]; simpl; try reflexivity.
  - rewrite E. reflexivity.
  - rewrite IH. reflexivity.
Qed.

Lemma update_nth_same {A : Type} i (g : A -> A) l :
  (forall x, g x = x) -> update_nth i g l = l.
Proof.
  intros E. revert i. induction l as [| x l IH]; intros [| i]; simpl; try reflexivity.
  - rewrite E. reflexivity.
  - rewrite IH. reflexivity.
Qed.

Lemma nth_error_update_nth {A : Type} i (g : A -> A) l :
  nth_error (update_nth i g l) i = option_map g (nth_error l i).
Proof.
  revert i. induction l as [| x l IH]; intros [| i]; simpl; try reflexivity.
  apply IH.
Qed.

Lemma modify_dom_compose el g h d :
  modify_dom el g (modify_dom el h d) = modify_dom el (fun e => g (h e)) d.
Proof.
  destruct d as [b f]. destruct el as [| i]; simpl.
  - destruct b; reflexivity.
  - destruct f as [[doc |] |]; simpl; try reflexivity.
    rewrite update_nth_compose. reflexivity.
Qed.

Lemma modify_dom_ext el g h d :
  (forall e, g e = h e) -> modify_dom el g d = modify_dom el h d.
Proof.
  intros E. destruct d as [b f]. destruct el as [| i]; simpl.
  - destruct b; simpl; [rewrite E |]; reflexivity.
  - destruct f as [[doc |] |]; simpl; try reflexivity.
    rewrite (update_nth_ext i g h doc E). reflexivity.
Qed.

Lemma modify_dom_same el g d : (forall e, g e = e) -> modify_dom el g d = d.
Proof.
  intros E. destruct d as [b f]. destruct el as [| i]; simpl.
  - destruct b; simpl; [rewrite E |]; reflexivity.
  - destruct f as [[doc |] |]; simpl; try reflexivity.
    rewrite (update_nth_same i g doc E). reflexivity.
Qed.

Lemma element_at_modified el g (w w' : W) :
  dom w' = modify_dom el g (dom w) ->
  element_at el w' = option_map g (element_at el w).
Proof.
  unfold dom. destruct el as [| i]; simpl; intros E; injection E as Eb Ef.
  - exact Eb.
  - rewrite Ef. destruct (iframe w) as [[doc |] |]; simpl; try reflexivity.
    apply nth_error_update_nth.
Qed.

Lemma toggleDarkClass_eq el (r : Params) :
  toggleDarkClass el r =
  bind (classList_add el (active_class r))
       (fun _ => classList_remove el (inactive_class r)).
Proof.
  unfold toggleDarkClass, active_class, inactive_class. cbv zeta.
  destruct (current r) as [[|] |]; reflexivity.
Qed.

Lemma check_token_valid token (w : W) :
  valid_token token = true -> check_token token w = (w, inr tt).
Proof.
  unfold valid_token, check_token. intros V. apply andb_prop in V as [V1 V2].
  apply negb_true_iff in V1, V2. rewrite V1, V2. reflexivity.
Qed.

Lemma check_token_invalid token (w : W) :
  valid_token token = false -> exists e, check_token token w = (w, inl e).
Proof.
  unfold valid_token, check_token. intros V.
  destruct (token =? ""); [eexists; reflexivity |].
  destruct (has_whitespace token); [eexists; reflexivity | discriminate].
Qed.

Lemma modify_element_run el f (w : W) :
  modify_element el f w = (after (modify_element el f) w, inr tt).
Proof. destruct el; reflexivity. Qed.

Lemma classList_add_valid el token (w : W) :
  valid_token token = true ->
  classList_add el token w =
  (after (log (ClassAdd el token))
     (after (modify_element el (with_classList (add_token token))) w), inr tt).
Proof.
  intros V. unfold classList_add.
  rewrite (bind_returns _ _ w w tt (check_token_valid _ w V)).
  rewrite (bind_returns _ _ _ _ tt (modify_element_run _ _ w)). reflexivity.
Qed.

Lemma classList_remove_valid el token (w : W) :
  valid_token token = true ->
  classList_remove el token w =
  (after (log (ClassRemove el token))
     (after (modify_element el (with_classList (remove_token token))) w), inr tt).
Proof.
  intros V. unfold classList_remove.
  rewrite (bind_returns _ _ w w tt (check_token_valid _ w V)).
  rewrite (bind_returns _ _ _ _ tt (modify_element_run _ _ w)). reflexivity.
Qed.

Lemma classList_add_invalid el token (w : W) :
  valid_token token = false -> exists e, classList_add el token w = (w, inl e).
Proof.
  intros V. destruct (check_token_invalid token w V) as [e E]. exists e.
  unfold classList_add. apply bind_throws, E.
Qed.

Lemma classList_remove_invalid el token (w : W) :
  valid_token token = false -> exists e, classList_remove el token w = (w, inl e).
Proof.
  intros V. destruct (check_token_invalid token w V) as [e E]. exists e.
  unfold classList_remove. apply bind_throws, E.
Qed.

Lemma dom_logged (e : Event ThemeVars) (w : W) : dom (after (log e) w) = dom w.
Proof. reflexivity. Qed.

Lemma dom_modified el f (w : W) :
  dom (after (modify_element el f) w) = modify_dom el f (dom w).
Proof. destruct el; reflexivity. Qed.

(** What one call of [toggleDarkClass] does to the DOM, whether it returns or
    throws. *)
Lemma toggleDarkClass_dom el (r : Params) (w : W) :
  dom (after (toggleDarkClass el r) w) =
  modify_dom el (with_classList (toggle_classes r)) (dom w).
Proof.
  rewrite toggleDarkClass_eq. unfold toggle_classes.
  destruct (valid_token (active_class r)) eqn:Va.
  - rewrite (after_bind_returns _ _ w _ tt (classList_add_valid el _ w Va)).
    destruct (valid_token (inactive_class r)) eqn:Vi.
    + unfold after at 1. rewrite (classList_remove_valid el _ _ Vi). simpl fst.
      rewrite dom_logged, dom_modified, dom_logged, dom_modified.
      rewrite modify_dom_compose. reflexivity.
    + unfold after at 1.
      match goal with
      | |- context [classList_remove el (inactive_class r) ?x] =>
          destruct (classList_remove_invalid el (inactive_class r) x Vi) as [e ->]
      end.
      simpl fst. rewrite dom_logged, dom_modified. reflexivity.
  - destruct (classList_add_invalid el _ w Va) as [e E].
    unfold after. rewrite (bind_throws _ _ w w e E).
    simpl. symmetry. apply modify_dom_same. intros []; reflexivity.
Qed.

Lemma toggle_classes_again (r : Params) l :
  toggle_classes r (toggle_classes r l) = toggle_classes r l.
Proof.
  unfold toggle_classes.
  destruct (valid_token (active_class r)); [| reflexivity].
  destruct (valid_token (inactive_class r));
    [apply toggle_tokens_again | apply add_token_again].
Qed.

(** C8, as the code has it: for every element and every record, a second
    call of [toggleDarkClass] with the same record leaves the DOM as the
    first call left it; and when the record's two class names are valid
    tokens and differ, the element then has the class of the record's mode
    and not the class of the other mode. *)
Theorem toggleDarkClass_idempotent el (r : Params) (w : W) :
  dom (after (toggleDarkClass el r) (after (toggleDarkClass el r) w)) =
    dom (after (toggleDarkClass el r) w) /\
  (forall e,
      element_at el w = Some e ->
      valid_token (active_class r) = true ->
      valid_token (inactive_class r) = true ->
      active_class r <> inactive_class r ->
      exists e',
        element_at el (after (toggleDarkClass el r) w) = Some e' /\
        In (active_class r) (classList e') /\
        ~ In (inactive_class r) (classList e')).
Proof.
  split.
  - rewrite !toggleDarkClass_dom, modify_dom_compose.
    apply modify_dom_ext. intros [t l a]. unfold with_classList. simpl.
    rewrite toggle_classes_again. reflexivity.
  - intros e He Va Vi N.
    rewrite (element_at_modified el _ w _ (toggleDarkClass_dom el r w)), He.
    simpl. eexists. split; [reflexivity |].
    unfold toggle_classes. rewrite Va, Vi. simpl. split.
    + apply In_remove_token. split; [apply In_add_token; auto | exact N].
    + intros H. apply In_remove_token in H as [_ H]. apply H. reflexivity.
Qed.

End Properties.

(** * The properties on the instance *)


Lemma store_first_read_writes_nothing_witness :
  outcome (store Demo.night_overrides) (Demo.browser None) =
    inr (spread defaultParams Demo.night_overrides) /\
  after (store Demo.night_overrides) (Demo.browser None) = Demo.browser None /\
  slot (after (store Demo.night_overrides) (Demo.browser None)) = None /\
  trace (after (store Demo.night_overrides) (Demo.browser None)) = [].
Proof.
  apply (store_first_read_writes_nothing Demo.night_overrides (Demo.browser None)).
  reflexivity.
Defined.

Lemma store_replaces_exactly_unequal_themes_witness :
  exists r w',
    store Demo.night_overrides (Demo.browser (Some (Demo.stringify Demo.user_light))) =
      (w', inr r) /\
    dark r = Some [("base", "night")] /\
    light r = light Demo.user_light /\
    current r = Some Light /\
    trace w' =
      [StorageWrite STORAGE_KEY (Demo.stringify (set_dark Demo.user_light [("base", "night")]))] /\
    slot w' = Some (Demo.stringify r).
Proof.
  destruct (store_replaces_exactly_unequal_themes Demo.night_overrides
              (Demo.browser (Some (Demo.stringify Demo.user_light)))
              (Demo.stringify Demo.user_light) Demo.user_light)
    as (r & w' & R & D & L & _ & _ & C & _ & _ & _ & T & S & _);
    [reflexivity | vm_compute; reflexivity |].
  exists r, w'.
  split; [exact R |]. split; [exact D |]. split; [exact L |].
  split; [exact C |]. split; [exact T | exact S].
Defined.


(** C2, as the specification states it, fails: with a stored record in dark mode and
    the preview configured, [setMode Dark] notifies first and only then
    touches the manager's body and the preview's body, so applicator calls
    follow the notification. *)
Lemma setMode_notifies_before_applying :
  trace (after (setMode (Some Demo.preview_body) Dark)
           (Demo.browser (Some (Demo.stringify Demo.user_dark)))) =
    [SetOptions (Some [("base", "dark")]); SetDark true; Emit true;
     ClassAdd Manager "dark"; ClassRemove Manager "light";
     ClassAdd (Preview 1) "dark"; ClassRemove (Preview 1) "light";
     SetAttribute (Preview 1) "theme" "dark"] /\
  applicators_before_emit
    (trace (after (setMode (Some Demo.preview_body) Dark)
              (Demo.browser (Some (Demo.stringify Demo.user_dark))))) = false.
Proof. split; vm_compute; reflexivity. Qed.

Lemma setMode_emits_once_then_applies_witness :
  exists shell frame,
    trace (after (setMode (Some Demo.preview_body) Dark)
             (Demo.browser (Some (Demo.stringify Demo.user_dark)))) =
      ([SetOptions (Some [("base", "dark")]); SetDark true; Emit true]
       ++ shell ++ frame)%list /\
    forallb on_manager shell = true /\
    forallb on_preview frame = true.
Proof.
  destruct (setMode_emits_once_then_applies (Some Demo.preview_body) Dark
              (Demo.browser (Some (Demo.stringify Demo.user_dark))) Demo.user_dark)
    as (shell & frame & S & Fs & Ff & _);
    [vm_compute; reflexivity |].
  exists shell, frame. split; [exact S |]. split; [exact Fs | exact Ff].
Defined.

Lemma updateMode_persists_target_then_sets_witness :
  slot (after (updateMode None None)
                  (Demo.browser (Some (Demo.stringify Demo.user_light)))) =
    Some (Demo.stringify (set_current Demo.user_light Dark)) /\
  slot (after (updateMode None (Some Light))
                  (Demo.browser (Some (Demo.stringify Demo.user_light)))) =
    Some (Demo.stringify (set_current Demo.user_light Light)).
Proof.
  split.
  - destruct (updateMode_persists_target_then_sets None None
                (Demo.browser (Some (Demo.stringify Demo.user_light)))
                (Demo.stringify Demo.user_light) Demo.user_light)
      as (_ & _ & _ & H); [reflexivity | vm_compute; reflexivity | exact H].
  - destruct (updateMode_persists_target_then_sets None (Some Light)
                (Demo.browser (Some (Demo.stringify Demo.user_light)))
                (Demo.stringify Demo.user_light) Demo.user_light)
      as (_ & _ & _ & H); [reflexivity | vm_compute; reflexivity | exact H].
Defined.

Lemma mount_resolves_by_priority_witness :
  (mount Demo.config_dark false (Demo.browser None) =
     bind (paramsEffect Demo.config_dark) (fun _ => updateMode None (Some Dark))
       (Demo.browser None) /\
   slot_mode (after (mount Demo.config_dark false) (Demo.browser None)) (Some Dark)) /\
  (mount emptyParams true (Demo.browser None) =
     bind (paramsEffect emptyParams) (fun _ => updateMode None (Some Dark))
       (Demo.browser None) /\
   slot_mode (after (mount emptyParams true) (Demo.browser None)) (Some Dark)) /\
  (mount emptyParams false (Demo.browser None) =
     bind (paramsEffect emptyParams) (fun _ => ret tt) (Demo.browser None) /\
   slot_mode (after (mount emptyParams false) (Demo.browser None)) None).
Proof.
  split; [| split].
  - destruct (mount_resolves_by_priority Demo.config_dark false (Demo.browser None))
      as (_ & M & S & _); [reflexivity |].
    split; [exact M | apply (S Dark); reflexivity].
  - destruct (mount_resolves_by_priority emptyParams true (Demo.browser None))
      as (_ & M & _ & S & _); [reflexivity |].
    split; [exact M | apply S; [reflexivity | reflexivity | vm_compute; reflexivity]].
  - destruct (mount_resolves_by_priority emptyParams false (Demo.browser None))
      as (_ & M & _ & _ & S); [reflexivity |].
    split; [exact M |].
    apply S; [reflexivity | reflexivity | vm_compute; reflexivity].
Defined.

Lemma mount_default_overrides_stored_mode_witness :
  initialMode Demo.config_dark (Demo.browser (Some (Demo.stringify Demo.user_light))) =
    (Demo.browser (Some (Demo.stringify Demo.user_light)), inr (Some Light)) /\
  slot (after (mount Demo.config_dark false)
                  (Demo.browser (Some (Demo.stringify Demo.user_light)))) =
    Some (Demo.stringify (set_current Demo.user_light Dark)) /\
  exists evs,
    trace (after (mount Demo.config_dark false)
             (Demo.browser (Some (Demo.stringify Demo.user_light)))) =
      ([StorageWrite STORAGE_KEY (Demo.stringify (set_current Demo.user_light Dark));
        SetOptions (Some [("base", "dark")]); SetDark true; Emit true] ++ evs)%list.
Proof.
  refine (mount_default_overrides_stored_mode false
            (Demo.browser (Some (Demo.stringify Demo.user_light)))
            (Demo.stringify Demo.user_light) Demo.user_light _ _ _ _).
  - reflexivity.
  - vm_compute. reflexivity.
  - reflexivity.
  - vm_compute. reflexivity.
Defined.

(** C8, as the specification states it, fails: on a record whose two class names are
    the same, the class of the record's mode is added and removed at once, so
    the element does not have it. *)
Lemma toggleDarkClass_same_class_name_absent :
  active_class Demo.same_class = "theme" /\
  element_at Manager (after (toggleDarkClass Manager Demo.same_class) (Demo.browser None)) =
    Some (mkElement "body" [] []) /\
  ~ In (active_class Demo.same_class) (classList (mkElement "body" [] [])).
Proof.
  split; [reflexivity |]. split; [reflexivity |]. simpl. intros [].
Qed.

Lemma toggleDarkClass_idempotent_witness :
  dom (after (toggleDarkClass Manager Demo.user_dark)
         (after (toggleDarkClass Manager Demo.user_dark) (Demo.browser None))) =
    dom (after (toggleDarkClass Manager Demo.user_dark) (Demo.browser None)) /\
  exists e',
    element_at Manager (after (toggleDarkClass Manager Demo.user_dark) (Demo.browser None)) =
      Some e' /\
    In "dark" (classList e') /\ ~ In "light" (classList e').
Proof.
  destruct (toggleDarkClass_idempotent Manager Demo.user_dark (Demo.browser None))
    as [I P].
  split; [exact I |].
  apply (P Demo.page); [reflexivity | reflexivity | reflexivity |].
  vm_compute. discriminate.
Defined.

(** * More of the code *)

Section Coverage.

Context {ThemeVars : Type} {platform : Platform ThemeVars}.

Local Abbreviation W := (World ThemeVars).
Local Abbreviation Params := (DarkModeParams ThemeVars).

(** ** The applicators, element by element *)

Lemma nth_error_update_nth_other {A : Type} i j (g : A -> A) l :
  i <> j -> nth_error (update_nth i g l) j = nth_error l j.
Proof.
  revert i j. induction l as [| x l IH]; intros [| i] [| j] N; simpl;
    try reflexivity; try congruence.
  apply IH. congruence.
Qed.

Lemma element_at_modified_other el el' g (w w' : W) :
  dom w' = modify_dom el g (dom w) -> el' <> el ->
  element_at el' w' = element_at el' w.
Proof.
  unfold dom. intros E N. destruct el as [| i]; simpl in E; injection E as Eb Ef.
  - destruct el' as [| j]; [congruence |]. simpl. rewrite Ef. reflexivity.
  - destruct el' as [| j]; simpl; [exact Eb |]. rewrite Ef.
    destruct (iframe w) as [[doc |] |]; simpl; try reflexivity.
    apply nth_error_update_nth_other. congruence.
Qed.

Lemma In_toggle_classes_other (r : Params) c l :
  c <> active_class r -> c <> inactive_class r ->
  In c (toggle_classes r l) <-> In c l.
Proof.
  intros Na Ni. unfold toggle_classes.
  destruct (valid_token (active_class r)); [| tauto].
  destruct (valid_token (inactive_class r)).
  - rewrite In_remove_token, In_add_token. tauto.
  - rewrite In_add_token. tauto.
Qed.

(** X1: [toggleDarkClass] touches nothing but the two classes of the record
    on the element it is given: the storage and every other element are as
    they were, and on the element itself the tag, the attributes and every
    class other than the two are as they were. *)
Theorem toggleDarkClass_touches_two_classes el (r : Params) (w : W) :
  localStorage (after (toggleDarkClass el r) w) = localStorage w /\
  (forall el', el' <> el ->
               element_at el' (after (toggleDarkClass el r) w) = element_at el' w) /\
  (forall e, element_at el w = Some e ->
             exists e',
               element_at el (after (toggleDarkClass el r) w) = Some e' /\
               tagName e' = tagName e /\
               attributes e' = attributes e /\
               forall c, c <> active_class r -> c <> inactive_class r ->
                         (In c (classList e') <-> In c (classList e))).
Proof.
  split; [| split].
  - apply (toggleDarkClass_steps el same_storage r (same_storage_respected el) w).
  - intros el' N.
    apply (element_at_modified_other el el' _ w _ (toggleDarkClass_dom el r w) N).
  - intros e He.
    rewrite (element_at_modified el _ w _ (toggleDarkClass_dom el r w)), He. simpl.
    eexists. split; [reflexivity |]. split; [reflexivity |]. split; [reflexivity |].
    intros c Na Ni. simpl. apply In_toggle_classes_other; assumption.
Qed.

Lemma assoc_get_put_other key k value l :
  k <> key -> assoc_get k (assoc_put key value l) = assoc_get k l.
Proof.
  intros N. induction l as [| [k0 v0] l IH]; simpl.
  - destruct (String.eqb_spec key k); [congruence | reflexivity].
  - destruct (String.eqb_spec k0 key) as [-> | N0]; simpl.
    + destruct (String.eqb_spec key k); [congruence | reflexivity].
    + destruct (String.eqb k0 k); [reflexivity | exact IH].
Qed.





(** ** The applicators, surface by surface *)

Lemma same_body_refl (w : W) : same_body w w.
Proof. reflexivity. Qed.

Lemma same_iframe_refl (w : W) : same_iframe w w.
Proof. reflexivity. Qed.

Lemma carried_same_body : carried (ThemeVars := ThemeVars) same_body.
Proof.
  split; [exact same_body_refl |].
  unfold same_body. intros w1 w2 w3 E1 E2. rewrite E2. exact E1.
Qed.

Lemma carried_same_iframe : carried (ThemeVars := ThemeVars) same_iframe.
Proof.
  split; [exact same_iframe_refl |].
  unfold same_iframe. intros w1 w2 w3 E1 E2. rewrite E2. exact E1.
Qed.

Lemma same_iframe_respected :
  respected_on (ThemeVars := ThemeVars) Manager same_iframe.
Proof.
  split; [exact carried_same_iframe |]. repeat split; intros; intros w; reflexivity.
Qed.

Lemma same_body_respected i :
  respected_on (ThemeVars := ThemeVars) (Preview i) same_body.
Proof.
  split; [exact carried_same_body |]. repeat split; intros; intros w; reflexivity.
Qed.

(** X3: each applicator stays on its own surface, whether it returns or
    throws: [updateManager] leaves the preview and the storage as they were,
    [updatePreview] leaves the manager's body and the storage as they
    were. *)
Theorem applicators_stay_on_their_surface (r : Params) (w : W) :
  iframe (after (updateManager r) w) = iframe w /\
  localStorage (after (updateManager r) w) = localStorage w /\
  body (after (updatePreview r) w) = body w /\
  localStorage (after (updatePreview r) w) = localStorage w.
Proof.
  split; [| split; [| split]].
  - apply (updateManager_steps same_iframe r same_iframe_respected w).
  - apply (updateManager_steps same_storage r (same_storage_respected Manager) w).
  - apply (updatePreview_steps same_body r same_body_respected w).
  - apply (updatePreview_steps same_storage r
             (fun i => same_storage_respected (Preview i)) w).
Qed.

(** X4: a surface that is not there is skipped without an error and
    without any call: [updateManager] when the manager has no body,
    [updatePreview] when there is no preview iframe or it has no document
    yet (whatever the record holds), and when no element of the preview
    matches the class target. *)
Theorem applicators_skip_missing_surfaces (r : Params) (w : W) :
  (body w = None -> updateManager r w = (w, inr tt)) /\
  (iframe w = None \/ iframe w = Some None -> updatePreview r w = (w, inr tt)) /\
  (forall doc pp,
      iframe w = Some (Some doc) -> previewParams r = Some pp ->
      valid_selector (selector_arg (classTarget pp)) = true ->
      find_from (matches (selector_arg (classTarget pp))) 0 doc = None ->
      updatePreview r w = (w, inr tt)).
Proof.
  split; [| split].
  - intros E. unfold updateManager, querySelector_body, bind. rewrite E. reflexivity.
  - intros [E | E]; unfold updatePreview, getPreviewIframe, bind; rewrite E; reflexivity.
  - intros doc pp E P V F.
    unfold updatePreview, getPreviewIframe, previewParams_of, iframe_querySelector, bind.
    rewrite E, P. simpl. rewrite V, E, F. reflexivity.
Qed.

Lemma toggleDarkClass_returns el (r : Params) (w : W) :
  valid_token (active_class r) = true -> valid_token (inactive_class r) = true ->
  toggleDarkClass el r w = (after (toggleDarkClass el r) w, inr tt).
Proof.
  intros Va Vi. rewrite (run_eq (toggleDarkClass el r) w) at 1. f_equal.
  unfold outcome. rewrite toggleDarkClass_eq.
  rewrite (bind_returns _ _ w _ tt (classList_add_valid el _ w Va)).
  rewrite (classList_remove_valid el _ _ Vi). reflexivity.
Qed.

Lemma updateManager_returns (r : Params) (w : W) :
  valid_token (active_class r) = true -> valid_token (inactive_class r) = true ->
  updateManager r w = (after (updateManager r) w, inr tt).
Proof.
  intros Va Vi. rewrite (run_eq (updateManager r) w) at 1. f_equal.
  unfold outcome, updateManager, querySelector_body, bind.
  destruct (body w); [| reflexivity].
  rewrite (toggleDarkClass_returns Manager r w Va Vi). reflexivity.
Qed.

Lemma updatePreview_without_previewParams (r : Params) doc (w : W) :
  iframe w = Some (Some doc) -> previewParams r = None ->
  updatePreview r w = (w, inl TypeError).
Proof.
  intros E P. unfold updatePreview, getPreviewIframe, previewParams_of, bind.
  rewrite E, P. reflexivity.
Qed.

(** X5: the preview is driven by the stored record, not by the component's
    own preview parameters: when the component has preview parameters and the
    preview has a document but the loaded record has none, [setMode] throws a
    [TypeError].  By then the mode has been announced and the manager
    updated; the preview is untouched. *)
Theorem setMode_throws_without_stored_previewParams pp mode (w : W) cs doc :
  outcome (store emptyParams) w = inr cs ->
  previewParams cs = None ->
  iframe w = Some (Some doc) ->
  valid_token (active_class cs) = true ->
  valid_token (inactive_class cs) = true ->
  outcome (setMode (Some pp) mode) w = inl TypeError /\
  iframe (after (setMode (Some pp) mode) w) = iframe w /\
  exists shell,
    since w (after (setMode (Some pp) mode) w)
      ([SetOptions (theme_of cs mode); SetDark (is_dark mode); Emit (is_dark mode)]
       ++ shell)%list /\
    forallb on_manager shell = true.
Proof.
  intros O P E Va Vi.
  set (w0 := announced cs mode w).
  assert (Em : iframe (after (updateManager cs) w0) = Some (Some doc)).
  { rewrite (updateManager_steps same_iframe cs same_iframe_respected w0). exact E. }
  assert (R : setMode (Some pp) mode w = (after (updateManager cs) w0, inl TypeError)).
  { rewrite (setMode_loaded (Some pp) mode w cs O). unfold apply_surfaces. fold w0.
    rewrite (bind_returns _ _ w0 _ tt (updateManager_returns cs w0 Va Vi)).
    apply (updatePreview_without_previewParams cs doc _ Em P). }
  unfold outcome, after at 1 2. rewrite R. simpl.
  split; [reflexivity |]. split; [rewrite Em, E; reflexivity |].
  destruct (updateManager_steps _ cs on_manager_respected w0) as [shell [S F]].
  exists shell. split; [| exact F].
  unfold since in *. rewrite S. unfold w0, announced, announce. simpl.
  rewrite <- app_assoc. reflexivity.
Qed.





(** ** [setMode], [updateMode] and [renderTheme] on the surfaces *)

Lemma In_toggle_classes (r : Params) l :
  valid_token (active_class r) = true -> valid_token (inactive_class r) = true ->
  active_class r <> inactive_class r ->
  In (active_class r) (toggle_classes r l) /\
  ~ In (inactive_class r) (toggle_classes r l).
Proof.
  intros Va Vi N. unfold toggle_classes. rewrite Va, Vi. split.
  - apply In_remove_token. split; [apply In_add_token; auto | exact N].
  - intros H. apply In_remove_token in H as [_ H]. apply H. reflexivity.
Qed.

Lemma body_after_updateManager (r : Params) (w : W) :
  body (after (updateManager r) w) =
  option_map (with_classList (toggle_classes r)) (body w).
Proof.
  destruct (body w) as [e |] eqn:E.
  - assert (R : updateManager r w = toggleDarkClass Manager r w).
    { unfold updateManager, querySelector_body, bind. rewrite E. reflexivity. }
    unfold after. rewrite R. fold (after (toggleDarkClass Manager r) w).
    pose proof (toggleDarkClass_dom Manager r w) as D. unfold dom in D. simpl in D.
    injection D as D _. rewrite D, E. reflexivity.
  - assert (R : updateManager r w = (w, inr tt)).
    { unfold updateManager, querySelector_body, bind. rewrite E. reflexivity. }
    unfold after. rewrite R. exact E.
Qed.

(** The manager's body after [setMode] on a record that loads. *)
Lemma body_after_setMode pp mode (w : W) cs :
  outcome (store emptyParams) w = inr cs ->
  body (after (setMode pp mode) w) =
  option_map (with_classList (toggle_classes cs)) (body w).
Proof.
  intros O. unfold after at 1. rewrite (setMode_loaded pp mode w cs O).
  fold (after (apply_surfaces pp cs) (announced cs mode w)).
  unfold apply_surfaces. rewrite after_bind.
  destruct (outcome (updateManager cs) (announced cs mode w)) as [e | []].
  - rewrite body_after_updateManager. reflexivity.
  - destruct pp as [p |].
    + rewrite (updatePreview_steps same_body cs same_body_respected _).
      rewrite body_after_updateManager. reflexivity.
    + unfold after at 1. simpl fst. rewrite body_after_updateManager. reflexivity.
Qed.

(** The calls of [setMode] on a record that loads. *)
Lemma setMode_trace pp mode (w : W) cs :
  outcome (store emptyParams) w = inr cs ->
  exists shell frame,
    since w (after (setMode pp mode) w) (announce cs mode ++ shell ++ frame)%list /\
    forallb on_manager shell = true /\
    forallb on_preview frame = true.
Proof.
  intros O. unfold after. rewrite (setMode_loaded pp mode w cs O).
  destruct (apply_surfaces_trace pp cs (announced cs mode w))
    as (shell & frame & S & Fs & Ff & _).
  exists shell, frame. split; [| split; assumption].
  unfold since, after in *. rewrite S. simpl. rewrite <- app_assoc. reflexivity.
Qed.

Lemma filter_emit_announce (cs : Params) mode (shell frame : list (Event ThemeVars)) :
  forallb on_manager shell = true -> forallb on_preview frame = true ->
  filter is_emit (announce cs mode ++ shell ++ frame)%list = [Emit (is_dark mode)].
Proof.
  intros Fs Ff. simpl.
  rewrite filter_app, (filter_emit_on_manager _ Fs), (filter_emit_on_preview _ Ff).
  reflexivity.
Qed.

(** X7: the class [setMode] puts on the manager's body is that of the mode
    in the loaded record, not that of the mode it is called with: whatever
    the argument, the body ends with the class of the record's mode and
    without the other class (the class names being valid tokens that
    differ). *)
Theorem setMode_applies_the_stored_mode pp mode (w : W) cs e :
  outcome (store emptyParams) w = inr cs ->
  body w = Some e ->
  valid_token (active_class cs) = true ->
  valid_token (inactive_class cs) = true ->
  active_class cs <> inactive_class cs ->
  exists e',
    body (after (setMode pp mode) w) = Some e' /\
    In (active_class cs) (classList e') /\
    ~ In (inactive_class cs) (classList e').
Proof.
  intros O B Va Vi N. rewrite (body_after_setMode pp mode w cs O), B. simpl.
  eexists. split; [reflexivity |]. simpl. apply In_toggle_classes; assumption.
Qed.

(** [updateMode] on a record that loads, with the record written read back. *)
Lemma updateMode_run pp mode (w : W) cs :
  outcome (store emptyParams) w = inr cs ->
  let target :=
    match mode with
    | Some m => m
    | None => match current cs with Some Dark => Light | _ => Dark end
    end in
  let w1 := after (updateStore (set_current cs target)) w in
  after (updateMode pp mode) w = after (setMode pp target) w1 /\
  slot (after (updateMode pp mode) w) = Some (JSON_stringify (set_current cs target)) /\
  (survives (set_current cs target) ->
   outcome (store emptyParams) w1 = inr (set_current cs target)).
Proof.
  intros O target w1.
  assert (A : after (updateMode pp mode) w = after (setMode pp target) w1).
  { unfold after at 1. rewrite (updateMode_loaded pp mode w cs O). reflexivity. }
  split; [exact A |]. split.
  - rewrite A, (same_storage_slot _ _ (setMode_same_storage pp target w1)).
    apply slot_written.
  - intros S. unfold outcome.
    rewrite (store_reads_back w1 _ _ (slot_written _ w) S). reflexivity.
Qed.

(** X8: after [updateMode] on a stored record, the three places agree on the
    target mode (the explicit mode, else the complement of the stored one):
    the slot holds the record with this mode, exactly one notification was
    made, with this mode, and the manager's body has the class of this mode
    and not the other class.  The record written has to read back, and its
    class names have to be valid tokens that differ. *)
Theorem updateMode_brings_the_surfaces_in_line pp mode (w : W) text s e :
  slot w = Some text -> JSON_parse text = Some s ->
  let target :=
    match mode, current s with
    | Some m, _ => m
    | None, Some c => complement c
    | None, None => Dark
    end in
  let r := set_current s target in
  survives r ->
  body w = Some e ->
  valid_token (active_class r) = true ->
  valid_token (inactive_class r) = true ->
  active_class r <> inactive_class r ->
  slot (after (updateMode pp mode) w) = Some (JSON_stringify r) /\
  current r = Some target /\
  (exists evs,
      since w (after (updateMode pp mode) w) evs /\
      filter is_emit evs = [Emit (is_dark target)]) /\
  (exists e',
      body (after (updateMode pp mode) w) = Some e' /\
      In (active_class r) (classList e') /\
      ~ In (inactive_class r) (classList e')).
Proof.
  intros E P target r S B Va Vi N.
  assert (O : outcome (store emptyParams) w = inr s).
  { unfold outcome. rewrite (store_reads_back w text s E P). reflexivity. }
  assert (T : match mode with
              | Some m => m
              | None => match current s with Some Dark => Light | _ => Dark end
              end = target).
  { subst target. destruct mode as [m |]; [reflexivity |].
    destruct (current s) as [[|] |]; reflexivity. }
  destruct (updateMode_run pp mode w s O) as (A & SL & O1).
  rewrite T in A, SL, O1. fold r in A, SL, O1. specialize (O1 S).
  set (w1 := after (updateStore r) w) in *.
  split; [exact SL |]. split; [reflexivity |]. split.
  - destruct (setMode_trace pp target w1 r O1) as (shell & frame & T1 & Fs & Ff).
    exists ([StorageWrite STORAGE_KEY (JSON_stringify r)]
            ++ announce r target ++ shell ++ frame)%list.
    split.
    + unfold since in *. rewrite A, T1. unfold w1. simpl.
      rewrite <- !app_assoc. reflexivity.
    + change (filter is_emit (announce r target ++ shell ++ frame)%list
              = [Emit (is_dark target)]).
      apply filter_emit_announce; assumption.
  - rewrite A, (body_after_setMode pp target w1 r O1).
    change (body w1) with (body w). rewrite B. simpl.
    eexists. split; [reflexivity |]. simpl. apply In_toggle_classes; assumption.
Qed.

(** X9: on an empty slot [updateMode] creates the record: the slot then
    holds the defaults with [current] set to the explicit mode, or to dark
    when there is none (toggling from nothing gives dark), whether or not
    the surfaces could be updated. *)
Theorem updateMode_creates_the_record pp mode (w : W) :
  slot w = None ->
  let target := match mode with Some m => m | None => Dark end in
  slot (after (updateMode pp mode) w) =
    Some (JSON_stringify (set_current defaultParams target)) /\
  updateMode pp mode w =
    setMode pp target (after (updateStore (set_current defaultParams target)) w).
Proof.
  intros E target.
  assert (O : outcome (store emptyParams) w = inr defaultParams).
  { unfold outcome. rewrite (store_nothing_stored emptyParams w E). reflexivity. }
  destruct (updateMode_run pp mode w defaultParams O) as (_ & SL & _).
  pose proof (updateMode_loaded pp mode w defaultParams O) as U. cbv zeta in U.
  assert (T : match mode with
              | Some m => m
              | None => match current (defaultParams (ThemeVars := ThemeVars)) with
                        | Some Dark => Light
                        | _ => Dark
                        end
              end = target).
  { subst target. destruct mode; reflexivity. }
  rewrite T in SL, U. split; [exact SL | exact U].
Qed.

(** X10: [renderTheme] changes nothing in the storage, whether it returns or
    throws, and when the record loads it makes exactly the calls of
    [setMode] on the record's own mode, light when the record has none: the
    theme of that mode, the state and one notification, then the
    applicators. *)
Theorem renderTheme_reasserts_the_stored_mode pp (w : W) :
  localStorage (after (renderTheme pp) w) = localStorage w /\
  (forall cs,
      outcome (store emptyParams) w = inr cs ->
      renderTheme pp w = setMode pp (rendered_mode cs) w /\
      exists shell frame,
        since w (after (renderTheme pp) w)
          ([SetOptions (theme_of cs (rendered_mode cs));
            SetDark (is_dark (rendered_mode cs));
            Emit (is_dark (rendered_mode cs))] ++ shell ++ frame)%list /\
        forallb on_manager shell = true /\
        forallb on_preview frame = true).
Proof.
  split; [apply (renderTheme_same_storage pp w) |].
  intros cs O. pose proof (renderTheme_loaded pp w cs O) as R.
  split; [exact R |].
  unfold after. rewrite R. apply (setMode_trace pp (rendered_mode cs) w cs O).
Qed.

(** X11: a change of the system preference goes straight to the slot and to
    the notification, over whatever mode was there: after
    [prefersDarkUpdate] on a record that loads, the slot holds the record
    with the system's mode, and the one notification made carries the
    event's [matches] (the record written having to read back). *)
Theorem prefersDarkUpdate_follows_the_system pp (event_matches : bool) (w : W) cs :
  outcome (store emptyParams) w = inr cs ->
  let target := if event_matches then Dark else Light in
  slot (after (prefersDarkUpdate pp event_matches) w) =
    Some (JSON_stringify (set_current cs target)) /\
  (survives (set_current cs target) ->
   exists evs,
     since w (after (prefersDarkUpdate pp event_matches) w) evs /\
     filter is_emit evs = [Emit event_matches]).
Proof.
  intros O target. unfold prefersDarkUpdate. fold target.
  destruct (updateMode_run pp (Some target) w cs O) as (A & SL & O1).
  split; [exact SL |]. intros S. specialize (O1 S).
  set (r := set_current cs target) in *.
  set (w1 := after (updateStore r) w) in *.
  destruct (setMode_trace pp target w1 r O1) as (shell & frame & T1 & Fs & Ff).
  exists ([StorageWrite STORAGE_KEY (JSON_stringify r)]
          ++ announce r target ++ shell ++ frame)%list.
  split.
  - unfold since in *. rewrite A, T1. unfold w1. simpl.
    rewrite <- !app_assoc. reflexivity.
  - change (filter is_emit (announce r target ++ shell ++ frame)%list
            = [Emit event_matches]).
    rewrite (filter_emit_announce r target shell frame Fs Ff).
    subst target. destruct event_matches; reflexivity.
Qed.

(** ** A slot that cannot be read *)

Lemma listener_unreadable pp sig (w : W) text :
  slot w = Some text -> JSON_parse text = None ->
  listener pp sig w = (w, inl SyntaxError).
Proof.
  intros E P.
  assert (O : outcome (store emptyParams) w = inl SyntaxError).
  { unfold outcome. rewrite (store_unreadable emptyParams w text E P). reflexivity. }
  destruct sig; simpl; unfold prefersDarkUpdate;
    first [ unfold renderTheme; apply bind_throws, (store_unreadable _ w text E P)
          | apply (updateMode_not_loaded _ _ w _ O) ].
Qed.

(** X12: a stored text that [JSON.parse] rejects stops every operation
    before it does anything: [setMode], [updateMode], [renderTheme],
    [prefersDarkUpdate], the parameters effect and the whole mount throw the
    [SyntaxError] and leave the world as it was (nothing announced, no
    surface touched, the text still there), and so does every signal
    delivered afterwards. *)
Theorem unreadable_slot_stops_everything pp mode mode' b cfg prefers signals (w : W) text :
  slot w = Some text -> JSON_parse text = None ->
  setMode pp mode w = (w, inl SyntaxError) /\
  updateMode pp mode' w = (w, inl SyntaxError) /\
  renderTheme pp w = (w, inl SyntaxError) /\
  prefersDarkUpdate pp b w = (w, inl SyntaxError) /\
  paramsEffect cfg w = (w, inl SyntaxError) /\
  mount cfg prefers w = (w, inl SyntaxError) /\
  deliver pp signals w = w.
Proof.
  intros E P.
  assert (O : outcome (store emptyParams) w = inl SyntaxError).
  { unfold outcome. rewrite (store_unreadable emptyParams w text E P). reflexivity. }
  split; [apply (setMode_not_loaded pp mode w _ O) |].
  split; [apply (updateMode_not_loaded pp mode' w _ O) |].
  split; [apply (listener_unreadable pp STORY_CHANGED w text E P) |].
  split; [apply (listener_unreadable pp (PrefersDarkChange b) w text E P) |].
  split; [unfold paramsEffect; apply bind_throws, (store_unreadable _ w text E P) |].
  split.
  - unfold mount, initialMode. apply bind_throws, bind_throws.
    apply (store_unreadable _ w text E P).
  - unfold deliver. induction signals as [| sig signals IH]; [reflexivity |].
    simpl. unfold after at 2. rewrite (listener_unreadable pp sig w text E P).
    exact IH.
Qed.

(** ** [store], called again *)

Lemma current_merged (o s : Params) : current (merged o s) = current s.
Proof.
  unfold merged, dark_merged.
  destruct (light o); [destruct (differs _ _) |];
    (destruct (dark o); [destruct (differs _ _) |]); reflexivity.
Qed.

Lemma dark_of_merged (o s : Params) :
  dark (merged o s) = (if differs (dark o) (dark s) then dark o else dark s).
Proof.
  assert (D : dark (dark_merged o s) =
              (if differs (dark o) (dark s) then dark o else dark s)).
  { unfold dark_merged. destruct (dark o) as [t |] eqn:E; [| reflexivity].
    destruct (differs (Some t) (dark s)); reflexivity. }
  rewrite <- D. unfold merged.
  destruct (light o) as [t |]; [| reflexivity].
  destruct (differs (Some t) (light s)); reflexivity.
Qed.

Lemma dark_merged_settled (o s : Params) :
  (forall t, dark o = Some t -> equal t t = true) ->
  differs (dark o) (dark (merged o s)) = false.
Proof.
  intros Rf. rewrite dark_of_merged.
  destruct (differs (dark o) (dark s)) eqn:F; [| exact F].
  destruct (dark o) as [t |]; [| reflexivity].
  simpl. rewrite (Rf t eq_refl). reflexivity.
Qed.

Lemma light_merged_settled (o s : Params) :
  (forall t, light o = Some t -> equal t t = true) ->
  differs (light o) (light (merged o s)) = false.
Proof.
  intros Rf. unfold merged.
  assert (L : light (dark_merged o s) = light s).
  { unfold dark_merged. destruct (dark o); [destruct (differs _ _) |]; reflexivity. }
  destruct (light o) as [t |] eqn:E; [| reflexivity].
  destruct (differs (Some t) (light s)) eqn:F.
  - simpl. rewrite (Rf t eq_refl). reflexivity.
  - rewrite L. exact F.
Qed.

Lemma merged_settled (o s : Params) :
  differs (dark o) (dark s) = false -> differs (light o) (light s) = false ->
  merged o s = s /\ merge_writes o s = [].
Proof.
  intros D L. unfold merge_writes. rewrite D, L. split; [| reflexivity].
  rewrite (merged_light_same o s L). unfold dark_merged. rewrite D.
  destruct (dark o); reflexivity.
Qed.

Lemma world_same_trace (w : W) :
  {| localStorage := localStorage w; body := body w; iframe := iframe w;
     trace := (trace w ++ [])%list |} = w.
Proof. destruct w. simpl. rewrite app_nil_r. reflexivity. Qed.

(** [store] on a stored record whose themes the overrides do not differ
    from: the record, and the world as it is. *)
Lemma store_settled (o : Params) (w : W) text s :
  slot w = Some text -> JSON_parse text = Some s ->
  differs (dark o) (dark s) = false -> differs (light o) (light s) = false ->
  store o w = (w, inr s).
Proof.
  intros E P D L. rewrite (store_stored o w text s E P).
  destruct (merged_settled o s D L) as [-> ->]. simpl replay.
  rewrite world_same_trace. reflexivity.
Qed.

(** The slot after [store] on a stored record reads back as the record
    returned, when a record that was written survives [JSON]. *)
Lemma slot_after_store (o : Params) (w : W) text s :
  slot w = Some text -> JSON_parse text = Some s ->
  survives (merged o s) ->
  exists text',
    slot (after (store o) w) = Some text' /\ JSON_parse text' = Some (merged o s).
Proof.
  intros E P S. unfold after. rewrite (store_stored o w text s E P). simpl fst.
  unfold slot. simpl localStorage. rewrite (slot_merged o s _ text E).
  destruct (differs (dark o) (dark s)) eqn:D.
  - exists (JSON_stringify (merged o s)). split; [reflexivity | exact S].
  - destruct (differs (light o) (light s)) eqn:L.
    + exists (JSON_stringify (merged o s)). split; [reflexivity | exact S].
    + exists text. split; [reflexivity |].
      destruct (merged_settled o s D L) as [-> _]. exact P.
Qed.

(** X13: [store] settles after one call: called again with the same
    overrides on the world it left, it writes nothing, changes nothing and
    returns the same record (deep equality holding between each supplied
    theme and itself, and the record written reading back). *)
Theorem store_second_call_writes_nothing (o : Params) (w : W) text s :
  slot w = Some text -> JSON_parse text = Some s ->
  survives (merged o s) ->
  (forall t, dark o = Some t -> equal t t = true) ->
  (forall t, light o = Some t -> equal t t = true) ->
  outcome (store o) w = inr (merged o s) /\
  store o (after (store o) w) = (after (store o) w, inr (merged o s)).
Proof.
  intros E P S Rd Rl. split.
  - unfold outcome. rewrite (store_stored o w text s E P). reflexivity.
  - destruct (slot_after_store o w text s E P S) as (text' & E' & P').
    apply (store_settled o _ text' (merged o s) E' P').
    + apply dark_merged_settled, Rd.
    + apply light_merged_settled, Rl.
Qed.

(** ** The other keys of the storage *)

Lemma carried_other_keys_kept : carried (ThemeVars := ThemeVars) other_keys_kept.
Proof.
  split.
  - intros w key _. reflexivity.
  - intros w1 w2 w3 H1 H2 key N. rewrite (H2 key N). apply (H1 key N).
Qed.

Lemma same_storage_other_keys (w w' : W) : same_storage w w' -> other_keys_kept w w'.
Proof. unfold same_storage. intros E key _. rewrite E. reflexivity. Qed.

Lemma steps_same_storage_other_keys {A : Type} (m : Eff W A) :
  steps same_storage m -> steps other_keys_kept m.
Proof. intros H w. apply same_storage_other_keys, H. Qed.

Lemma updateStore_other_keys (r : Params) : steps other_keys_kept (updateStore r).
Proof. intros w key N. apply (assoc_get_put_other STORAGE_KEY key _ _ N). Qed.

Lemma store_other_keys (o : Params) : steps other_keys_kept (store o).
Proof.
  intros w. destruct (slot w) as [text |] eqn:E.
  - destruct (JSON_parse text) as [s |] eqn:P.
    + unfold after. rewrite (store_stored o w text s E P). simpl fst.
      intros key N. simpl localStorage. unfold merge_writes.
      destruct (differs (dark o) (dark s)), (differs (light o) (light s)); simpl;
        rewrite ?(assoc_get_put_other STORAGE_KEY key _ _ N); reflexivity.
    + unfold after. rewrite (store_unreadable o w text E P). intros key _. reflexivity.
  - unfold after. rewrite (store_nothing_stored o w E). intros key _. reflexivity.
Qed.

Lemma updateMode_other_keys pp mode :
  steps other_keys_kept (updateMode (ThemeVars := ThemeVars) pp mode).
Proof.
  unfold updateMode. apply steps_bind;
    [exact carried_other_keys_kept | apply store_other_keys |].
  intros cs. cbv zeta. apply steps_bind;
    [exact carried_other_keys_kept | apply updateStore_other_keys |].
  intros _. apply steps_same_storage_other_keys, setMode_same_storage.
Qed.

Lemma listener_other_keys pp sig :
  steps other_keys_kept (listener (ThemeVars := ThemeVars) pp sig).
Proof.
  destruct sig as [ | | | mode | event_matches]; cbn [listener].
  - apply steps_same_storage_other_keys. exact (renderTheme_same_storage pp).
  - apply steps_same_storage_other_keys. exact (renderTheme_same_storage pp).
  - apply steps_same_storage_other_keys. exact (renderTheme_same_storage pp).
  - exact (updateMode_other_keys pp mode).
  - exact (updateMode_other_keys pp (Some (if event_matches then Dark else Light))).
Qed.

Lemma mount_other_keys (cfg : Params) prefers :
  steps other_keys_kept (mount cfg prefers).
Proof.
  pose proof carried_other_keys_kept as C.
  unfold mount. apply steps_bind; [exact C | |].
  - unfold initialMode. apply steps_bind; [exact C | apply store_other_keys |].
    intros r. apply steps_ret, C.
  - intros initial. apply steps_bind; [exact C | |].
    + unfold paramsEffect. apply steps_bind; [exact C | apply store_other_keys |].
      intros cs. apply steps_bind; [exact C | apply updateStore_other_keys |].
      intros _. apply steps_same_storage_other_keys, renderTheme_same_storage.
    + intros _. unfold initEffect.
      destruct initial; [apply steps_ret, C |].
      destruct (current cfg); [apply updateMode_other_keys |].
      destruct prefers; [apply updateMode_other_keys | apply steps_ret, C].
Qed.

(** X14: the tool owns one key of the storage and no other: whatever a
    mount and the signals delivered after it do, whether they return or
    throw, every key other than [STORAGE_KEY] has the value it had. *)
Theorem other_storage_keys_are_never_touched (cfg : Params) prefers signals (w : W) key :
  key <> STORAGE_KEY ->
  assoc_get key (localStorage (after (mount cfg prefers) w)) =
    assoc_get key (localStorage w) /\
  assoc_get key (localStorage (deliver (previewParams cfg) signals w)) =
    assoc_get key (localStorage w) /\
  assoc_get key
    (localStorage (deliver (previewParams cfg) signals (after (mount cfg prefers) w))) =
    assoc_get key (localStorage w).
Proof.
  intros N.
  assert (D : forall w0 : W,
             assoc_get key (localStorage (deliver (previewParams cfg) signals w0)) =
             assoc_get key (localStorage w0)).
  { unfold deliver. induction signals as [| sig signals IH]; intros w0; [reflexivity |].
    simpl. rewrite IH. apply (listener_other_keys (previewParams cfg) sig w0 key N). }
  split; [apply (mount_other_keys cfg prefers w key N) |].
  split; [apply D |].
  rewrite D. apply (mount_other_keys cfg prefers w key N).
Qed.

(** ** The parameters effect and the render *)

(** X15: the parameters effect writes the loaded record with every field
    the caller supplies in the place of the stored one, [current] and the
    preview parameters included, and keeps the fields the caller does not
    supply; the slot holds that record afterwards whether or not the
    rendering that follows returns. *)
Theorem paramsEffect_persists_the_parameters (cfg : Params) (w : W) cs :
  outcome (store emptyParams) w = inr cs ->
  slot (after (paramsEffect cfg) w) = Some (JSON_stringify (spread cs cfg)) /\
  (forall m, current cfg = Some m -> current (spread cs cfg) = Some m) /\
  (current cfg = None -> current (spread cs cfg) = current cs) /\
  (forall pp, previewParams cfg = Some pp -> previewParams (spread cs cfg) = Some pp) /\
  (previewParams cfg = None -> previewParams (spread cs cfg) = previewParams cs).
Proof.
  intros O. split.
  - assert (R : paramsEffect cfg w =
                renderTheme (previewParams cfg) (after (updateStore (spread cs cfg)) w)).
    { unfold paramsEffect.
      rewrite (bind_returns _ _ w w cs) by (rewrite store_no_overrides_run, O; reflexivity).
      reflexivity. }
    unfold after at 1. rewrite R.
    fold (after (renderTheme (previewParams cfg)) (after (updateStore (spread cs cfg)) w)).
    rewrite (same_storage_slot _ _ (renderTheme_same_storage (previewParams cfg) _)).
    apply slot_written.
  - simpl. repeat split; intros; rewrite H; reflexivity.
Qed.

Lemma store_outcome_of_storage (w w' : W) :
  localStorage w' = localStorage w ->
  outcome (store emptyParams) w' = outcome (store emptyParams) w.
Proof.
  intros E. assert (S : slot w' = slot w) by (unfold slot; rewrite E; reflexivity).
  destruct (slot w) as [text |] eqn:Es.
  - destruct (JSON_parse text) as [s |] eqn:P.
    + unfold outcome. rewrite (store_reads_back w' text s S P),
        (store_reads_back w text s Es P). reflexivity.
    + unfold outcome. rewrite (store_unreadable _ w' text S P),
        (store_unreadable _ w text Es P). reflexivity.
  - unfold outcome. rewrite (store_nothing_stored _ w' S), (store_nothing_stored _ w Es).
    reflexivity.
Qed.

(** X16: the signals that re-render ([STORY_CHANGED], [SET_STORIES],
    [DOCS_RENDERED]) never change the storage, however many are delivered,
    and on a record that loads each of them makes exactly one notification,
    always of the record's own mode (light when it has none). *)
Theorem rerender_signals_keep_the_stored_mode pp signals (w : W) :
  forallb rerenders signals = true ->
  localStorage (deliver pp signals w) = localStorage w /\
  (forall cs,
      outcome (store emptyParams) w = inr cs ->
      exists evs,
        since w (deliver pp signals w) evs /\
        filter is_emit evs =
          repeat (Emit (is_dark (rendered_mode cs))) (length signals)).
Proof.
  unfold deliver. revert w. induction signals as [| sig signals IH]; intros w F.
  - split; [reflexivity |]. intros cs _. exists []. split; [| reflexivity].
    unfold since. simpl. rewrite app_nil_r. reflexivity.
  - simpl in F. apply andb_prop in F as [Fs F].
    assert (L : listener pp sig = renderTheme pp) by (destruct sig; try discriminate; reflexivity).
    simpl. rewrite L.
    pose proof (renderTheme_same_storage pp w) as K. unfold same_storage in K.
    destruct (IH (after (renderTheme pp) w) F) as [IHs IHe].
    split; [rewrite IHs; exact K |].
    intros cs O.
    assert (O' : outcome (store emptyParams) (after (renderTheme pp) w) = inr cs).
    { rewrite (store_outcome_of_storage w _ K). exact O. }
    destruct (IHe cs O') as (evs & S & E).
    destruct (setMode_trace pp (rendered_mode cs) w cs O) as (shell & frame & T & Ms & Mf).
    exists ((announce cs (rendered_mode cs) ++ shell ++ frame) ++ evs)%list. split.
    + assert (TR : trace (after (renderTheme pp) w) =
                   (trace w ++ announce cs (rendered_mode cs) ++ shell ++ frame)%list).
      { unfold after. rewrite (renderTheme_loaded pp w cs O). exact T. }
      unfold since in *. rewrite S, TR. symmetry. apply app_assoc.
    + rewrite filter_app, (filter_emit_announce cs _ shell frame Ms Mf), E. reflexivity.
Qed.

(** The mode the render finds on a stored record is the stored one. *)
Lemma initialMode_stored (cfg : Params) (w : W) text s :
  slot w = Some text -> JSON_parse text = Some s ->
  outcome (initialMode cfg) w = inr (current s).
Proof.
  intros E P. unfold outcome, initialMode.
  rewrite (bind_returns _ _ w _ _ (store_stored (rest_params cfg) w text s E P)).
  unfold ret. simpl. rewrite current_merged. reflexivity.
Qed.

(** X17: on a stored record the render's [initialMode] is the stored mode,
    whatever the caller's parameters say: a [current] among them is left out
    of what [store] is given, and the themes among them, written through or
    not, do not change the mode.  With a stored mode the last effect then
    does nothing. *)
Theorem initialMode_is_the_stored_mode (cfg : Params) prefers (w : W) text s m :
  slot w = Some text -> JSON_parse text = Some s -> current s = Some m ->
  outcome (initialMode cfg) w = inr (Some m) /\
  forall w', initEffect (previewParams cfg) (Some m) (current cfg) prefers w' = (w', inr tt).
Proof.
  intros E P C. split.
  - rewrite (initialMode_stored cfg w text s E P), C. reflexivity.
  - intros w'. reflexivity.
Qed.

(** X18: the resolution happens once.  After a mount on an empty slot with
    a caller's default (the record written reading back), the slot holds the
    defaults under the caller's parameters, with the default as its mode, so
    the next render, whatever its parameters, finds this mode as
    [initialMode] and the last effect has nothing left to do. *)
Theorem mount_resolves_once (cfg cfg' : Params) prefers (w : W) m :
  slot w = None -> current cfg = Some m ->
  survives (spread defaultParams cfg) ->
  slot (after (mount cfg prefers) w) = Some (JSON_stringify (spread defaultParams cfg)) /\
  current (spread defaultParams cfg) = Some m /\
  outcome (initialMode cfg') (after (mount cfg prefers) w) = inr (Some m).
Proof.
  intros E Cm S.
  set (r1 := spread defaultParams cfg) in *.
  assert (C1 : current r1 = Some m) by (unfold r1; simpl; rewrite Cm; reflexivity).
  assert (R1 : set_current r1 m = r1).
  { unfold r1, spread, set_current. simpl. rewrite Cm. reflexivity. }
  assert (SL : slot (after (mount cfg prefers) w) = Some (JSON_stringify r1)).
  { assert (M : mount cfg prefers w =
                bind (paramsEffect cfg)
                  (fun _ => updateMode (previewParams cfg) (Some m)) w).
    { unfold mount. rewrite (bind_returns _ _ w w None (initialMode_nothing_stored cfg w E)).
      unfold initEffect. rewrite Cm. reflexivity. }
    unfold after at 1. rewrite M.
    fold (after (bind (paramsEffect cfg)
                   (fun _ => updateMode (previewParams cfg) (Some m))) w).
    rewrite after_bind.
    pose proof (paramsEffect_slot cfg w E) as PS. fold r1 in PS.
    destruct (outcome (paramsEffect cfg) w) as [e | []]; [exact PS |].
    assert (O : outcome (store emptyParams) (after (paramsEffect cfg) w) = inr r1).
    { unfold outcome. rewrite (store_reads_back _ _ r1 PS S). reflexivity. }
    destruct (updateMode_run (previewParams cfg) (Some m) _ r1 O) as (_ & SL & _).
    rewrite R1 in SL. exact SL. }
  split; [exact SL |]. split; [exact C1 |].
  rewrite (initialMode_stored cfg' _ _ r1 SL S), C1. reflexivity.
Qed.

(** X19: two toggles bring the stored record back: after [updateMode] with
    no argument, twice, on a stored record that has a mode, the slot holds
    that record again (the record with the complement, written in between,
    having to read back). *)
Theorem updateMode_twice_restores_the_record pp (w : W) text s c :
  slot w = Some text -> JSON_parse text = Some s -> current s = Some c ->
  survives (set_current s (complement c)) ->
  slot (after (updateMode pp None) w) =
    Some (JSON_stringify (set_current s (complement c))) /\
  slot (after (updateMode pp None) (after (updateMode pp None) w)) =
    Some (JSON_stringify s).
Proof.
  intros E P C S.
  assert (O : outcome (store emptyParams) w = inr s).
  { unfold outcome. rewrite (store_reads_back w text s E P). reflexivity. }
  destruct (updateMode_run pp None w s O) as (_ & SL & _).
  assert (T : match current s with Some Dark => Light | _ => Dark end = complement c).
  { rewrite C. destruct c; reflexivity. }
  rewrite T in SL. split; [exact SL |].
  set (s1 := set_current s (complement c)) in *.
  set (w2 := after (updateMode pp None) w) in *.
  assert (O2 : outcome (store emptyParams) w2 = inr s1).
  { unfold outcome. rewrite (store_reads_back w2 _ s1 SL S). reflexivity. }
  destruct (updateMode_run pp None w2 s1 O2) as (_ & SL2 & _).
  assert (R : set_current s1 match current s1 with Some Dark => Light | _ => Dark end = s).
  { unfold s1. destruct s as [cu d dc l lc p]. simpl in *. subst cu.
    destruct c; reflexivity. }
  rewrite R in SL2. exact SL2.
Qed.

End Coverage.

(** * The further properties on the instance *)

Lemma toggleDarkClass_touches_two_classes_witness :
  exists e',
    element_at Manager
      (after (toggleDarkClass Manager Demo.user_dark)
         (Demo.shared_browser (Demo.stringify Demo.user_dark))) = Some e' /\
    attributes e' = [("lang", "en")] /\
    (In "sb-show-main" (classList e') <-> In "sb-show-main" (classList Demo.styled_page)).
Proof.
  destruct (toggleDarkClass_touches_two_classes Manager Demo.user_dark
              (Demo.shared_browser (Demo.stringify Demo.user_dark)))
    as (_ & _ & H).
  destruct (H Demo.styled_page eq_refl) as (e' & E & _ & A & C).
  exists e'. split; [exact E |]. split; [exact A |].
  apply C; vm_compute; discriminate.
Defined.


Lemma applicators_skip_missing_surfaces_witness :
  updateManager Demo.user_dark (mkWorld [] None None []) =
    (mkWorld [] None None [], inr tt) /\
  updatePreview Demo.user_light (mkWorld [] None (Some None) []) =
    (mkWorld [] None (Some None) [], inr tt).
Proof.
  destruct (applicators_skip_missing_surfaces Demo.user_dark
              (mkWorld (T := Demo.Theme) [] None None [])) as (M & _).
  destruct (applicators_skip_missing_surfaces Demo.user_light
              (mkWorld (T := Demo.Theme) [] None (Some None) [])) as (_ & P & _).
  split; [apply M; reflexivity | apply P; right; reflexivity].
Defined.

Lemma setMode_throws_without_stored_previewParams_witness :
  outcome (setMode (Some Demo.preview_body) Dark)
    (Demo.browser (Some (Demo.stringify Demo.user_light))) = inl TypeError /\
  iframe (after (setMode (Some Demo.preview_body) Dark)
            (Demo.browser (Some (Demo.stringify Demo.user_light)))) =
    Some (Some Demo.preview_doc).
Proof.
  destruct (setMode_throws_without_stored_previewParams Demo.preview_body Dark
              (Demo.browser (Some (Demo.stringify Demo.user_light)))
              Demo.user_light Demo.preview_doc)
    as (T & I & _);
    [vm_compute; reflexivity | reflexivity | reflexivity | reflexivity | reflexivity |].
  split; [exact T | exact I].
Defined.


Lemma setMode_applies_the_stored_mode_witness :
  exists e',
    body (after (setMode None Dark)
            (Demo.browser (Some (Demo.stringify Demo.user_light)))) = Some e' /\
    In "light" (classList e') /\ ~ In "dark" (classList e').
Proof.
  refine (setMode_applies_the_stored_mode None Dark
            (Demo.browser (Some (Demo.stringify Demo.user_light)))
            Demo.user_light Demo.page _ _ _ _ _);
    try reflexivity; vm_compute; solve [reflexivity | discriminate].
Defined.

Lemma updateMode_brings_the_surfaces_in_line_witness :
  slot (after (updateMode None None)
          (Demo.browser (Some (Demo.stringify Demo.user_light)))) =
    Some (Demo.stringify (set_current Demo.user_light Dark)) /\
  exists e',
    body (after (updateMode None None)
            (Demo.browser (Some (Demo.stringify Demo.user_light)))) = Some e' /\
    In "dark" (classList e') /\ ~ In "light" (classList e').
Proof.
  destruct (updateMode_brings_the_surfaces_in_line None None
              (Demo.browser (Some (Demo.stringify Demo.user_light)))
              (Demo.stringify Demo.user_light) Demo.user_light Demo.page)
    as (S & _ & _ & B);
    try reflexivity; try (vm_compute; solve [reflexivity | discriminate]).
  split; [exact S | exact B].
Defined.

Lemma updateMode_creates_the_record_witness :
  slot (after (updateMode None None) (Demo.browser None)) =
    Some (Demo.stringify (set_current defaultParams Dark)) /\
  slot (after (updateMode None (Some Light)) (Demo.browser None)) =
    Some (Demo.stringify (set_current defaultParams Light)).
Proof.
  split.
  - destruct (updateMode_creates_the_record None None (Demo.browser None) eq_refl)
      as (S & _). exact S.
  - destruct (updateMode_creates_the_record None (Some Light) (Demo.browser None) eq_refl)
      as (S & _). exact S.
Defined.

Lemma renderTheme_reasserts_the_stored_mode_witness :
  localStorage (after (renderTheme None) (Demo.browser None)) = [] /\
  renderTheme None (Demo.browser None) = setMode None Light (Demo.browser None).
Proof.
  destruct (renderTheme_reasserts_the_stored_mode None (Demo.browser None)) as (S & H).
  split; [exact S |].
  destruct (H defaultParams eq_refl) as (R & _). exact R.
Defined.

Lemma prefersDarkUpdate_follows_the_system_witness :
  slot (after (prefersDarkUpdate None true)
          (Demo.browser (Some (Demo.stringify Demo.user_light)))) =
    Some (Demo.stringify (set_current Demo.user_light Dark)) /\
  exists evs,
    trace (after (prefersDarkUpdate None true)
             (Demo.browser (Some (Demo.stringify Demo.user_light)))) = evs /\
    filter is_emit evs = [Emit true].
Proof.
  destruct (prefersDarkUpdate_follows_the_system None true
              (Demo.browser (Some (Demo.stringify Demo.user_light))) Demo.user_light)
    as (S & H); [vm_compute; reflexivity |].
  split; [exact S |].
  destruct H as (evs & T & F); [vm_compute; reflexivity |].
  exists evs. split; [exact T | exact F].
Defined.

Lemma unreadable_slot_stops_everything_witness :
  mount Demo.config_dark true (Demo.browser (Some "oops")) =
    (Demo.browser (Some "oops"), inl SyntaxError) /\
  deliver None [STORY_CHANGED; UPDATE_DARK_MODE None; PrefersDarkChange true]
    (Demo.browser (Some "oops")) = Demo.browser (Some "oops").
Proof.
  destruct (unreadable_slot_stops_everything None Dark None true Demo.config_dark true
              [STORY_CHANGED; UPDATE_DARK_MODE None; PrefersDarkChange true]
              (Demo.browser (Some "oops")) "oops")
    as (_ & _ & _ & _ & _ & M & D); [reflexivity | reflexivity |].
  split; [exact M | exact D].
Defined.

Lemma store_second_call_writes_nothing_witness :
  store Demo.night_overrides
    (after (store Demo.night_overrides)
       (Demo.browser (Some (Demo.stringify Demo.user_light)))) =
  (after (store Demo.night_overrides)
     (Demo.browser (Some (Demo.stringify Demo.user_light))),
   inr (set_dark Demo.user_light [("base", "night")])).
Proof.
  destruct (store_second_call_writes_nothing Demo.night_overrides
              (Demo.browser (Some (Demo.stringify Demo.user_light)))
              (Demo.stringify Demo.user_light) Demo.user_light)
    as (_ & H).
  - reflexivity.
  - vm_compute. reflexivity.
  - vm_compute. reflexivity.
  - intros t E. injection E as <-. reflexivity.
  - intros t E. discriminate E.
  - exact H.
Defined.

Lemma other_storage_keys_are_never_touched_witness :
  assoc_get "other-tool"
    (localStorage
       (deliver None [UPDATE_DARK_MODE None; STORY_CHANGED]
          (after (mount Demo.config_dark false)
             (Demo.shared_browser (Demo.stringify Demo.user_light))))) = Some "kept".
Proof.
  destruct (other_storage_keys_are_never_touched Demo.config_dark false
              [UPDATE_DARK_MODE None; STORY_CHANGED]
              (Demo.shared_browser (Demo.stringify Demo.user_light)) "other-tool")
    as (_ & _ & H); [vm_compute; discriminate |].
  exact H.
Defined.

Lemma paramsEffect_persists_the_parameters_witness :
  slot (after (paramsEffect Demo.config_dark)
          (Demo.browser (Some (Demo.stringify Demo.user_light)))) =
    Some (Demo.stringify (spread Demo.user_light Demo.config_dark)) /\
  current (spread Demo.user_light Demo.config_dark) = Some Dark.
Proof.
  destruct (paramsEffect_persists_the_parameters Demo.config_dark
              (Demo.browser (Some (Demo.stringify Demo.user_light))) Demo.user_light)
    as (S & C & _); [vm_compute; reflexivity |].
  split; [exact S | apply C; reflexivity].
Defined.

Lemma rerender_signals_keep_the_stored_mode_witness :
  localStorage (deliver None [STORY_CHANGED; DOCS_RENDERED; SET_STORIES]
                  (Demo.browser (Some (Demo.stringify Demo.user_dark)))) =
    [(STORAGE_KEY, Demo.stringify Demo.user_dark)] /\
  exists evs,
    trace (deliver None [STORY_CHANGED; DOCS_RENDERED; SET_STORIES]
             (Demo.browser (Some (Demo.stringify Demo.user_dark)))) = evs /\
    filter is_emit evs = [Emit true; Emit true; Emit true].
Proof.
  destruct (rerender_signals_keep_the_stored_mode None
              [STORY_CHANGED; DOCS_RENDERED; SET_STORIES]
              (Demo.browser (Some (Demo.stringify Demo.user_dark))) eq_refl)
    as (S & H).
  split; [exact S |].
  destruct (H Demo.user_dark) as (evs & T & F); [vm_compute; reflexivity |].
  exists evs. split; [exact T | exact F].
Defined.

Lemma initialMode_is_the_stored_mode_witness :
  outcome (initialMode Demo.config_dark)
    (Demo.browser (Some (Demo.stringify Demo.user_light))) = inr (Some Light).
Proof.
  destruct (initialMode_is_the_stored_mode Demo.config_dark false
              (Demo.browser (Some (Demo.stringify Demo.user_light)))
              (Demo.stringify Demo.user_light) Demo.user_light Light)
    as (H & _); [reflexivity | vm_compute; reflexivity | reflexivity |].
  exact H.
Defined.

Lemma mount_resolves_once_witness :
  outcome (initialMode emptyParams)
    (after (mount Demo.config_dark false) (Demo.browser None)) = inr (Some Dark).
Proof.
  destruct (mount_resolves_once Demo.config_dark emptyParams false (Demo.browser None) Dark)
    as (_ & _ & H); [reflexivity | reflexivity | vm_compute; reflexivity |].
  exact H.
Defined.

Lemma updateMode_twice_restores_the_record_witness :
  slot (after (updateMode None None)
          (after (updateMode None None)
             (Demo.browser (Some (Demo.stringify Demo.user_light))))) =
    Some (Demo.stringify Demo.user_light).
Proof.
  destruct (updateMode_twice_restores_the_record None
              (Demo.browser (Some (Demo.stringify Demo.user_light)))
              (Demo.stringify Demo.user_light) Demo.user_light Light)
    as (_ & H); [reflexivity | vm_compute; reflexivity | reflexivity
                 | vm_compute; reflexivity |].
  exact H.
Defined.
